(** * Gerador de texto de empenho: the output normaliser and the session state

    A shallow embedding of [services/geminiService.ts]
    ([generateEmpenhoDescription]) and of the state handlers of [App.tsx]
    ([processFile], [handleProcess], [handleReset], the textarea's
    [onChange]), with the properties the specification states about them. *)

From Stdlib Require Import String Ascii.
From Stdlib Require Import List NArith Bool Lia.
Import ListNotations.
Open Scope N_scope.

(** ** JavaScript strings

    A JavaScript string is a sequence of UTF-16 code units.  [trim],
    [startsWith] and [replace] work on code units; [toUpperCase] works on the
    code points they encode. *)

Definition jsstring : Type := list N.

Definition isHighSurrogate (c : N) : bool := (0xD800 <=? c) && (c <=? 0xDBFF).
Definition isLowSurrogate (c : N) : bool := (0xDC00 <=? c) && (c <=? 0xDFFF).

(** The code units of one code point. *)
Definition encodeUtf16 (cp : N) : jsstring :=
  if cp <? 0x10000 then [cp]
  else [0xD800 + (cp - 0x10000) / 0x400; 0xDC00 + (cp - 0x10000) mod 0x400].

(** The code points of a string: a high surrogate followed by a low one is one
    supplementary code point, any other code unit (a lone surrogate too) stands
    for itself. *)
Fixpoint codePoints (s : jsstring) : list N :=
  match s with
  | [] => []
  | c :: rest =>
      match rest with
      | d :: rest' =>
          if isHighSurrogate c && isLowSurrogate d
          then (0x10000 + (c - 0xD800) * 0x400 + (d - 0xDC00)) :: codePoints rest'
          else c :: codePoints rest
      | [] => [c]
      end
  end.

(** Literals are written as Rocq strings, which hold UTF-8 bytes. *)
Fixpoint utf8CodePoints (bs : list N) : list N :=
  match bs with
  | [] => []
  | b0 :: r0 =>
      if b0 <? 0x80 then b0 :: utf8CodePoints r0
      else
        match r0 with
        | [] => []
        | b1 :: r1 =>
            if b0 <? 0xE0
            then ((b0 mod 0x20) * 0x40 + b1 mod 0x40) :: utf8CodePoints r1
            else
              match r1 with
              | [] => []
              | b2 :: r2 =>
                  if b0 <? 0xF0
                  then ((b0 mod 0x10) * 0x1000 + (b1 mod 0x40) * 0x40 + b2 mod 0x40)
                         :: utf8CodePoints r2
                  else
                    match r2 with
                    | [] => []
                    | b3 :: r3 =>
                        ((b0 mod 0x8) * 0x40000 + (b1 mod 0x40) * 0x1000
                         + (b2 mod 0x40) * 0x40 + b3 mod 0x40) :: utf8CodePoints r3
                    end
              end
        end
  end.

Definition js (s : string) : jsstring :=
  flat_map encodeUtf16 (utf8CodePoints (map N_of_ascii (list_ascii_of_string s))).
Arguments js s : simpl never.

(** *** The case table

    [String.prototype.toUpperCase] maps every code point through the Unicode
    upper-case mapping of the host, one code point to one or more (U+00DF gives
    "SS").  The table is the host's, so it is a parameter here; only its Basic
    Latin part, which every version of the table shares, is fixed. *)

Definition asciiUpper (c : N) : N :=
  if (0x61 <=? c) && (c <=? 0x7A) then c - 0x20 else c.

Class CaseTable : Type := {
  upperCodePoint : N -> list N;
  upperCodePoint_ascii : forall c, c < 0x80 -> upperCodePoint c = [asciiUpper c]
}.

(** A table to run examples with: Basic Latin, the Latin-1 Supplement and, as
    one script outside the Basic Multilingual Plane, Deseret. *)
Definition sampleUpper (c : N) : list N :=
  if c <? 0x80 then [asciiUpper c]
  else if c =? 0xB5 then [0x39C]
  else if c =? 0xDF then [0x53; 0x53]
  else if c =? 0xF7 then [c]
  else if c =? 0xFF then [0x178]
  else if (0xE0 <=? c) && (c <=? 0xFE) then [c - 0x20]
  else if (0x10428 <=? c) && (c <=? 0x1044F) then [c - 0x28]
  else [c].

Lemma sampleUpper_ascii : forall c, c < 0x80 -> sampleUpper c = [asciiUpper c].
Proof.
  intros c Hc. unfold sampleUpper.
  apply N.ltb_lt in Hc. rewrite Hc. reflexivity.
Qed.

Definition sampleTable : CaseTable :=
  {| upperCodePoint := sampleUpper; upperCodePoint_ascii := sampleUpper_ascii |}.

Section Strings.
Context {table : CaseTable}.

(** [s.toUpperCase()] *)
Definition toUpperCase (s : jsstring) : jsstring :=
  flat_map (fun cp => flat_map encodeUtf16 (upperCodePoint cp)) (codePoints s).

End Strings.

(** [s.trim()] removes the WhiteSpace and LineTerminator code points of
    ECMAScript from both ends. *)
Definition isWhiteSpace (c : N) : bool :=
  existsb (N.eqb c)
    [0x9; 0xA; 0xB; 0xC; 0xD; 0x20; 0xA0; 0x1680; 0x2028; 0x2029; 0x202F;
     0x205F; 0x3000; 0xFEFF]
  || ((0x2000 <=? c) && (c <=? 0x200A)).

Fixpoint trimStart (s : jsstring) : jsstring :=
  match s with
  | [] => []
  | c :: rest => if isWhiteSpace c then trimStart rest else s
  end.

Definition trimEnd (s : jsstring) : jsstring := rev (trimStart (rev s)).

Definition trim (s : jsstring) : jsstring := trimEnd (trimStart s).

(** [s.startsWith(pre)] *)
Fixpoint startsWith (s pre : jsstring) {struct pre} : bool :=
  match pre with
  | [] => true
  | p :: pre' =>
      match s with
      | [] => false
      | c :: s' => (c =? p) && startsWith s' pre'
      end
  end.

(** [s.replace(/pat/g, repl)] for a pattern that is a literal, non-empty
    sequence of code units: the matches are found from the left and do not
    overlap.  [skip] counts the code units of the current match that are still
    to be passed over. *)
Fixpoint replaceFrom (skip : nat) (pat repl s : jsstring) : jsstring :=
  match s with
  | [] => []
  | c :: rest =>
      match skip with
      | S k => replaceFrom k pat repl rest
      | O =>
          if startsWith (c :: rest) pat
          then repl ++ replaceFrom (length pat - 1) pat repl rest
          else c :: replaceFrom 0 pat repl rest
      end
  end.

Definition replaceAll (pat repl s : jsstring) : jsstring := replaceFrom 0 pat repl s.

(** [a === b] on strings *)
Fixpoint strictEquals (a b : jsstring) : bool :=
  match a, b with
  | [], [] => true
  | c :: a', d :: b' => (c =? d) && strictEquals a' b'
  | _, _ => false
  end.

(** [l.includes(x)] on an array of strings *)
Definition includes (l : list jsstring) (x : jsstring) : bool :=
  existsb (fun y => strictEquals y x) l.

(** [s.split(sep)] for a separator of one code unit *)
Fixpoint split (sep : N) (s : jsstring) : list jsstring :=
  match s with
  | [] => [[]]
  | c :: rest =>
      if c =? sep then [] :: split sep rest
      else
        match split sep rest with
        | piece :: pieces => (c :: piece) :: pieces
        | [] => [[c]]
        end
  end.

(** [x || y] on a string that may be undefined: the empty string is falsy. *)
Definition orElse (x : option jsstring) (y : jsstring) : jsstring :=
  match x with
  | Some (c :: rest) => c :: rest
  | _ => y
  end.

(** Predicates the properties are stated with: no asterisk in the string, and
    every code unit in Basic Latin. *)
Definition noAsterisk (s : jsstring) : bool := forallb (fun c => negb (c =? 0x2A)) s.

Definition isAscii (s : jsstring) : bool := forallb (fun c => c <? 0x80) s.

(** Basic Latin with no lower-case letter. *)
Definition isUpperAscii (s : jsstring) : bool :=
  forallb (fun c => (c <? 0x80) && (asciiUpper c =? c)) s.

(** Nothing but white space that [trim] removes. *)
Definition isBlank (s : jsstring) : bool := forallb isWhiteSpace s.

(** No comma in the string. *)
Definition noComma (s : jsstring) : bool := forallb (fun c => negb (c =? 0x2C)) s.

(** ** services/geminiService.ts: the normalisation of the model's text *)

Definition requiredPrefix : jsstring := js "PELA DESPESA EMPENHADA".

Section Normalizer.
Context {table : CaseTable}.

(** The statements of [generateEmpenhoDescription] from
    [text = text.toUpperCase().trim()] to [return text]. *)
Definition normalizeOutput (text0 : jsstring) : jsstring :=
  let text := trim (toUpperCase text0) in
  let text := replaceAll (js "*") [] (replaceAll (js "**") [] text) in
  if negb (startsWith text requiredPrefix) then
    if startsWith text (js "REFERENTE") then
      js "PELA DESPESA EMPENHADA " ++ text
    else
      requiredPrefix ++ js " REFERENTE A " ++ text
  else text.

End Normalizer.

(** *** The specification's three steps (§4.4), written from its words *)

(** "first double-asterisk sequences" *)
Fixpoint dropDoubleAsterisks (s : jsstring) : jsstring :=
  match s with
  | [] => []
  | c :: rest =>
      match rest with
      | d :: rest' =>
          if (c =? 0x2A) && (d =? 0x2A) then dropDoubleAsterisks rest'
          else c :: dropDoubleAsterisks rest
      | [] => [c]
      end
  end.

(** "then any remaining single asterisks" *)
Definition dropAsterisks (s : jsstring) : jsstring :=
  filter (fun c => negb (c =? 0x2A)) s.

Section NormalizerSpec.
Context {table : CaseTable}.

Definition spec_step1 (raw : jsstring) : jsstring := trim (toUpperCase raw).

Definition spec_step2 (t : jsstring) : jsstring := dropAsterisks (dropDoubleAsterisks t).

Definition spec_step3 (t : jsstring) : jsstring :=
  if startsWith t (js "PELA DESPESA EMPENHADA") then t
  else if startsWith t (js "REFERENTE") then js "PELA DESPESA EMPENHADA " ++ t
  else js "PELA DESPESA EMPENHADA REFERENTE A " ++ t.

Definition normalize_spec (raw : jsstring) : jsstring :=
  spec_step3 (spec_step2 (spec_step1 raw)).

End NormalizerSpec.

(** ** Promises and thrown values *)

(** What a [catch] clause can receive: an instance of [Error] with its
    message, or any other value. *)
Inductive JsValue : Type :=
| ErrorObject (message : jsstring)
| OtherValue (description : jsstring).

(** A settled promise. *)
Inductive Outcome (A : Type) : Type :=
| Fulfilled (value : A)
| Rejected (reason : JsValue).
Arguments Fulfilled {A} value.
Arguments Rejected {A} reason.

(** [await] inside a [try] block: a rejection leaves the block. *)
Definition await {A B : Type} (m : Outcome A) (k : A -> Outcome B) : Outcome B :=
  match m with
  | Fulfilled a => k a
  | Rejected e => Rejected e
  end.

Notation "x <- m ;; k" := (await m (fun x => k))
  (at level 61, m at next level, right associativity).

(** ** services/geminiService.ts *)

Record File : Type := { name : jsstring; size : N; type : jsstring }.

Record InlineData : Type := { data : option jsstring; mimeType : jsstring }.

Record GenerateContentParameters : Type := {
  model : jsstring;
  inlineData : InlineData;
  promptText : jsstring;
  temperature : N * N  (* a decimal fraction: numerator, denominator *)
}.

Record GenerateContentResponse : Type := { text : option jsstring }.

(** The collaborators outside the repository: the browser's [FileReader] and
    [URL.createObjectURL], and the remote model behind
    [ai.models.generateContent]. *)
Record Host : Type := {
  readAsDataURL : File -> Outcome jsstring;
  generateContent : GenerateContentParameters -> Outcome GenerateContentResponse;
  createObjectURL : File -> jsstring
}.

Definition quote : jsstring := [0x22].

Definition prompt : jsstring :=
  concat (map (fun line => 0xA :: line)
    [ js "      Analise o documento anexo (pode ser uma fatura, contrato, ordem de serviço, ou requisição).";
      js "      O seu objetivo é gerar o texto da " ++ quote ++ js "Descrição" ++ quote
        ++ js " para uma Nota de Empenho (NE) do setor público.";
      js "      ";
      js "      Regras Estritas:";
      js "      1. A saída deve estar EXCLUSIVAMENTE em CAIXA ALTA (letras maiúsculas).";
      js "      2. O texto deve começar OBRIGATORIAMENTE com a frase exata: " ++ quote
        ++ js "PELA DESPESA EMPENHADA REFERENTE A" ++ quote ++ js ".";
      js "      3. Identifique o objeto da despesa de forma sucinta mas completa (ex: aquisição de material de consumo, prestação de serviço de limpeza, etc).";
      js "      4. Se houver número de processo, pregão, contrato ou nota fiscal visível, inclua-os no texto.";
      js "      5. Não use markdown, apenas texto puro.";
      js "      ";
      js "      Exemplo de formato esperado:";
      js "      " ++ quote
        ++ js "PELA DESPESA EMPENHADA REFERENTE A AQUISIÇÃO DE MATERIAIS DE ESCRITÓRIO PARA ATENDER AS NECESSIDADES DA SECRETARIA MUNICIPAL DE SAÚDE, CONFORME PREGÃO ELETRÔNICO N. 12/2024 E CONTRATO N. 05/2024."
        ++ quote;
      js "    " ]).

(** The messages shown to the user, as the two files write them. *)
Definition tooLargeMessage : jsstring := js "O arquivo é muito grande. O limite é 20MB.".

Definition invalidTypeMessage : jsstring :=
  js "Tipo de arquivo inválido. Use PDF ou Imagens (JPG, PNG).".

Definition unknownErrorMessage : jsstring := js "Ocorreu um erro desconhecido.".

Definition failureMessage : jsstring :=
  js "Falha ao processar o documento. Verifique se o arquivo é válido e tente novamente.".

(** The argument of [ai.models.generateContent]. *)
Definition request (filePart : InlineData) : GenerateContentParameters :=
  {| model := js "gemini-2.5-flash"; inlineData := filePart;
     promptText := prompt; temperature := (2, 10) |}.

Section Service.
Context {table : CaseTable} (host : Host).

(** [fileToGenerativePart]: the promise resolves with the text after the first
    comma of the data URL, and rejects when the reader fails. *)
Definition fileToGenerativePart (f : File) : Outcome InlineData :=
  base64String <- readAsDataURL host f ;;
  Fulfilled {| data := nth_error (split 0x2C base64String) 1; mimeType := type f |}.

(** [generateEmpenhoDescription]: the promise's outcome, with what the [catch]
    clause wrote to [console.error]. *)
Definition generateEmpenhoDescription (f : File) : list JsValue * Outcome jsstring :=
  let body :=
    filePart <- fileToGenerativePart f ;;
    response <- generateContent host (request filePart) ;;
    Fulfilled (normalizeOutput (orElse (text response) []))
  in
  match body with
  | Fulfilled t => ([], Fulfilled t)
  | Rejected error =>
      ([error], Rejected (ErrorObject failureMessage))
  end.

End Service.

(** ** types.ts and the state of App.tsx *)

Inductive ProcessingStatus : Type := IDLE | PROCESSING | SUCCESS | ERROR.

Record FileData : Type := { file : File; previewUrl : option jsstring }.

(** The six [useState] cells of [App], and what [fileInputRef.current] holds:
    [None] while the input element is not mounted, else its [value].  Mounting
    is the renderer's business; the handlers only read and clear the value. *)
Record AppState : Type := {
  status : ProcessingStatus;
  fileData : option FileData;
  generatedText : jsstring;
  errorMsg : option jsstring;
  isEditing : bool;
  isDragging : bool;
  fileInputRef : option jsstring
}.

Definition initialState : AppState :=
  {| status := IDLE; fileData := None; generatedText := []; errorMsg := None;
     isEditing := false; isDragging := false; fileInputRef := Some [] |}.

Definition setStatus (v : ProcessingStatus) (st : AppState) : AppState :=
  {| status := v; fileData := fileData st; generatedText := generatedText st;
     errorMsg := errorMsg st; isEditing := isEditing st; isDragging := isDragging st;
     fileInputRef := fileInputRef st |}.

Definition setFileData (v : option FileData) (st : AppState) : AppState :=
  {| status := status st; fileData := v; generatedText := generatedText st;
     errorMsg := errorMsg st; isEditing := isEditing st; isDragging := isDragging st;
     fileInputRef := fileInputRef st |}.

Definition setGeneratedText (v : jsstring) (st : AppState) : AppState :=
  {| status := status st; fileData := fileData st; generatedText := v;
     errorMsg := errorMsg st; isEditing := isEditing st; isDragging := isDragging st;
     fileInputRef := fileInputRef st |}.

Definition setErrorMsg (v : option jsstring) (st : AppState) : AppState :=
  {| status := status st; fileData := fileData st; generatedText := generatedText st;
     errorMsg := v; isEditing := isEditing st; isDragging := isDragging st;
     fileInputRef := fileInputRef st |}.

Definition setIsEditing (v : bool) (st : AppState) : AppState :=
  {| status := status st; fileData := fileData st; generatedText := generatedText st;
     errorMsg := errorMsg st; isEditing := v; isDragging := isDragging st;
     fileInputRef := fileInputRef st |}.

Definition setIsDragging (v : bool) (st : AppState) : AppState :=
  {| status := status st; fileData := fileData st; generatedText := generatedText st;
     errorMsg := errorMsg st; isEditing := isEditing st; isDragging := v;
     fileInputRef := fileInputRef st |}.

(** [fileInputRef.current.value = v], guarded by [if (fileInputRef.current)] *)
Definition clearFileInput (st : AppState) : AppState :=
  {| status := status st; fileData := fileData st; generatedText := generatedText st;
     errorMsg := errorMsg st; isEditing := isEditing st; isDragging := isDragging st;
     fileInputRef := match fileInputRef st with Some _ => Some [] | None => None end |}.

(** A handler is a sequence of state updates. *)
Notation "st |> f" := (f st) (at level 45, left associativity, only parsing).

(** The bound of the size check, written [20 * 1024 * 1024] in [processFile]. *)
Definition maxSize : N := 20 * 1024 * 1024.

Definition validTypes : list jsstring :=
  [js "application/pdf"; js "image/png"; js "image/jpeg"; js "image/jpg"; js "image/webp"].

Section App.
Context {table : CaseTable} (host : Host).

(** [processFile]: the two early returns, then the acceptance. *)
Definition processFile (f : File) (st : AppState) : AppState :=
  if maxSize <? size f then
    st |> setErrorMsg (Some tooLargeMessage)
  else if negb (includes validTypes (type f)) then
    st |> setErrorMsg (Some invalidTypeMessage)
  else
    let previewUrl :=
      if startsWith (type f) (js "image/") then Some (createObjectURL host f)
      else if strictEquals (type f) (js "application/pdf") then
        Some (js "https://upload.wikimedia.org/wikipedia/commons/8/87/PDF_file_icon.svg")
      else None in
    st |> setFileData (Some {| file := f; previewUrl := previewUrl |})
       |> setErrorMsg None
       |> setStatus IDLE
       |> setGeneratedText [].

(** [handleFileChange] and [handleDrop]: [files && files[0]] *)
Definition handleFileChange (files : option (list File)) (st : AppState) : AppState :=
  match files with
  | Some (f :: _) => st |> processFile f
  | _ => st
  end.

Definition handleDragOver (st : AppState) : AppState := st |> setIsDragging true.

Definition handleDragLeave (st : AppState) : AppState := st |> setIsDragging false.

Definition handleDrop (files : option (list File)) (st : AppState) : AppState :=
  match files with
  | Some (f :: _) => st |> setIsDragging false |> processFile f
  | _ => st |> setIsDragging false
  end.

(** [handleProcess] up to its [await]; [None] is the early return. *)
Definition handleProcess_begin (st : AppState) : option AppState :=
  match fileData st with
  | None => None
  | Some _ => Some (st |> setStatus PROCESSING |> setErrorMsg None)
  end.

(** [handleProcess] after its [await]: the rest of the [try] block, or the
    [catch] clause. *)
Definition handleProcess_settle (r : Outcome jsstring) (st : AppState) : AppState :=
  match r with
  | Fulfilled t =>
      st |> setGeneratedText t |> setStatus SUCCESS |> setIsEditing true
  | Rejected err =>
      st |> setErrorMsg
              (Some match err with
                    | ErrorObject message => message
                    | OtherValue _ => unknownErrorMessage
                    end)
         |> setStatus ERROR
  end.

Definition handleProcess (st : AppState) : AppState :=
  match fileData st with
  | None => st
  | Some fd =>
      st |> setStatus PROCESSING
         |> setErrorMsg None
         |> handleProcess_settle (snd (generateEmpenhoDescription host (file fd)))
  end.

(** [handleCopy]: the text written to the clipboard. *)
Definition handleCopy (st : AppState) : jsstring := generatedText st.

(** [handleDownload]: the name and the content of the file offered. *)
Definition handleDownload (st : AppState) : jsstring * jsstring :=
  (js "descricao_empenho.txt", generatedText st).

Definition handleReset (st : AppState) : AppState :=
  st |> setFileData None
     |> setGeneratedText []
     |> setStatus IDLE
     |> setErrorMsg None
     |> setIsEditing false
     |> clearFileInput.

(** The result section, and the textarea in it, is rendered only when
    [status === ProcessingStatus.SUCCESS]. *)
Definition resultSectionShown (st : AppState) : bool :=
  match status st with
  | SUCCESS => true
  | _ => false
  end.

(** The textarea's [onChange]: [setGeneratedText(e.target.value.toUpperCase())] *)
Definition textArea_onChange (value : jsstring) (st : AppState) : AppState :=
  st |> setGeneratedText (toUpperCase value).

End App.

(** ** Hosts and files to run the handlers on *)

Definition pngFile : File :=
  {| name := js "nota.png"; size := 5 * 1024 * 1024; type := js "image/png" |}.

Definition smallTextFile : File :=
  {| name := js "notas.txt"; size := 1024; type := js "text/plain" |}.

Definition largeTextFile : File :=
  {| name := js "notas.txt"; size := 25 * 1024 * 1024; type := js "text/plain" |}.

(** A host whose model answers with the given text, or with no text. *)
Definition answeringHost (answer : option jsstring) : Host :=
  {| readAsDataURL := fun _ => Fulfilled (js "data:image/png;base64,iVBORw0KGgo=");
     generateContent := fun _ => Fulfilled {| text := answer |};
     createObjectURL := fun _ => js "blob:preview" |}.

(** A host whose model call fails with the given value. *)
Definition failingHost (e : JsValue) : Host :=
  {| readAsDataURL := fun _ => Fulfilled (js "data:image/png;base64,iVBORw0KGgo=");
     generateContent := fun _ => Rejected e;
     createObjectURL := fun _ => js "blob:preview" |}.

(** ** What the rendered page lets the user do

    The JSX of [App] decides which handler can run in which state: the drop
    zone and the file input are rendered only while [!fileData]; the file card
    with its two buttons is rendered otherwise, and both buttons are disabled
    while [status === ProcessingStatus.PROCESSING]; the result section, with
    the textarea and the button Limpar tudo, is rendered only when
    [status === ProcessingStatus.SUCCESS]. *)

Definition fileCardShown (st : AppState) : bool :=
  match fileData st with
  | Some _ => true
  | None => false
  end.

Definition dropZoneShown (st : AppState) : bool := negb (fileCardShown st).

Definition buttonsDisabled (st : AppState) : bool :=
  match status st with
  | PROCESSING => true
  | _ => false
  end.

(** What can happen to the page.  An event that reaches the browser or the
    model carries the host as it is at that moment. *)
Inductive Event : Type :=
| DragOver
| DragLeave
| Drop (host : Host) (files : option (list File))
| FileChange (host : Host) (files : option (list File))
| ClickGenerate
| Settle (host : Host)
| ClickRemove
| ClickClearAll
| Edit (value : jsstring).

Section Page.
Context {table : CaseTable}.

(** The state after an event, or [None] when the page does not offer it.
    [ClickGenerate] runs [handleProcess] up to its [await], and [Settle] runs
    the rest of it once the promise of [generateEmpenhoDescription] settles. *)
Definition dispatch (ev : Event) (st : AppState) : option AppState :=
  match ev with
  | DragOver => if dropZoneShown st then Some (handleDragOver st) else None
  | DragLeave => if dropZoneShown st then Some (handleDragLeave st) else None
  | Drop host files => if dropZoneShown st then Some (handleDrop host files st) else None
  | FileChange host files =>
      if dropZoneShown st then Some (handleFileChange host files st) else None
  | ClickGenerate =>
      if fileCardShown st && negb (buttonsDisabled st) then handleProcess_begin st
      else None
  | Settle host =>
      match status st, fileData st with
      | PROCESSING, Some fd =>
          Some (handleProcess_settle (snd (generateEmpenhoDescription host (file fd))) st)
      | _, _ => None
      end
  | ClickRemove =>
      if fileCardShown st && negb (buttonsDisabled st) then Some (handleReset st)
      else None
  | ClickClearAll => if resultSectionShown st then Some (handleReset st) else None
  | Edit value => if resultSectionShown st then Some (textArea_onChange value st) else None
  end.

(** A session: the events in the order they happen. *)
Fixpoint run (evs : list Event) (st : AppState) : option AppState :=
  match evs with
  | [] => Some st
  | ev :: evs' =>
      match dispatch ev st with
      | Some st' => run evs' st'
      | None => None
      end
  end.

End Page.

(** Sessions to run: a refused drop; an accepted file and a click on Gerar
    Texto; the same up to a fulfilled generation and an edit; the same
    followed by a second generation that fails. *)
Definition refusedSession : list Event :=
  [DragOver; Drop (answeringHost None) (Some [largeTextFile])].

Definition processingSession : list Event :=
  [DragOver; Drop (answeringHost None) (Some [pngFile]); ClickGenerate].

Definition successSession : list Event :=
  processingSession
  ++ [Settle (answeringHost (Some (js "material de escritório"))); Edit (js "nota 12")].

Definition errorSession : list Event :=
  successSession ++ [ClickGenerate; Settle (failingHost (OtherValue (js "network")))].

(** The state a session of the examples ends in. *)
Definition stateAfter (evs : list Event) : AppState :=
  match @run sampleTable evs initialState with
  | Some st => st
  | None => initialState
  end.

(** A host whose reader gives the given text. *)
Definition readingHost (result : jsstring) : Host :=
  {| readAsDataURL := fun _ => Fulfilled result;
     generateContent := fun _ => Fulfilled {| text := None |};
     createObjectURL := fun _ => js "blob:preview" |}.

(** What every state of a session satisfies. *)
Definition sessionInvariant (st : AppState) : Prop :=
  (status st <> IDLE -> exists fd, fileData st = Some fd)
  /\ (status st = IDLE -> generatedText st = [])
  /\ (status st = ERROR -> errorMsg st = Some failureMessage)
  /\ (status st = PROCESSING \/ status st = SUCCESS -> errorMsg st = None)
  /\ (status st = SUCCESS -> isEditing st = true)
  /\ (forall fd, fileData st = Some fd ->
        size (file fd) <= maxSize
        /\ In (type (file fd)) validTypes
        /\ exists url, previewUrl fd = Some url).

(** * Properties *)

(** ** Strings *)

Lemma startsWith_app (a b pre : jsstring) :
  startsWith a pre = true -> startsWith (a ++ b) pre = true.
Proof.
  revert a. induction pre as [|p pre IH]; intros a H.
  - reflexivity.
  - destruct a as [|c a]; simpl in *.
    + discriminate.
    + apply andb_true_iff in H. destruct H as [Hc Ha].
      rewrite Hc. simpl. now apply IH.
Qed.

Lemma startsWith_refl (s : jsstring) : startsWith s s = true.
Proof.
  induction s as [|c s IH]; simpl.
  - reflexivity.
  - now rewrite N.eqb_refl.
Qed.

Lemma startsWith_prepend (pre s : jsstring) : startsWith (pre ++ s) pre = true.
Proof. apply startsWith_app, startsWith_refl. Qed.

Lemma requiredPrefix_js : requiredPrefix = js "PELA DESPESA EMPENHADA".
Proof. vm_compute. reflexivity. Qed.

Lemma js_asterisk : js "*" = [0x2A].
Proof. reflexivity. Qed.

Lemma js_double_asterisk : js "**" = [0x2A; 0x2A].
Proof. reflexivity. Qed.

(** The second [replace] of the source removes every asterisk. *)
Lemma replaceAll_asterisk (s : jsstring) :
  replaceAll (js "*") [] s = dropAsterisks s.
Proof.
  rewrite js_asterisk. unfold replaceAll.
  induction s as [|c s IH]; simpl.
  - reflexivity.
  - rewrite andb_true_r. destruct (c =? 0x2A); simpl; now rewrite IH.
Qed.

Lemma dropAsterisks_cons (c : N) (s : jsstring) :
  dropAsterisks (c :: s) = if c =? 0x2A then dropAsterisks s else c :: dropAsterisks s.
Proof. unfold dropAsterisks. simpl. now destruct (c =? 0x2A). Qed.

Lemma dropDoubleAsterisks_cons2 (c d : N) (s : jsstring) :
  dropDoubleAsterisks (c :: d :: s)
  = if (c =? 0x2A) && (d =? 0x2A) then dropDoubleAsterisks s
    else c :: dropDoubleAsterisks (d :: s).
Proof. reflexivity. Qed.

Lemma replaceFrom_cons2 (c d : N) (s : jsstring) :
  replaceFrom 0 [0x2A; 0x2A] [] (c :: d :: s)
  = if (c =? 0x2A) && (d =? 0x2A) then replaceFrom 0 [0x2A; 0x2A] [] s
    else c :: replaceFrom 0 [0x2A; 0x2A] [] (d :: s).
Proof. simpl. now rewrite andb_true_r. Qed.

(** The first [replace] of the source removes the pairs of asterisks, found
    from the left. *)
Lemma replaceFrom_double_asterisk (s : jsstring) :
  replaceFrom 0 [0x2A; 0x2A] [] s = dropDoubleAsterisks s
  /\ forall c, replaceFrom 0 [0x2A; 0x2A] [] (c :: s) = dropDoubleAsterisks (c :: s).
Proof.
  induction s as [|d s [IH0 IH1]].
  - split; [reflexivity|].
    intro c. simpl. now rewrite andb_false_r.
  - split; [apply IH1|].
    intro c.
    now rewrite replaceFrom_cons2, dropDoubleAsterisks_cons2, IH0, IH1.
Qed.

Lemma replaceAll_double_asterisk (s : jsstring) :
  replaceAll (js "**") [] s = dropDoubleAsterisks s.
Proof. rewrite js_double_asterisk. apply replaceFrom_double_asterisk. Qed.

(** Removing the pairs first does not change what is left once every asterisk
    is removed. *)
Lemma dropAsterisks_dropDoubleAsterisks_cons (s : jsstring) :
  dropAsterisks (dropDoubleAsterisks s) = dropAsterisks s
  /\ forall c, dropAsterisks (dropDoubleAsterisks (c :: s)) = dropAsterisks (c :: s).
Proof.
  induction s as [|d s [IH0 IH1]].
  - split; reflexivity.
  - split; [apply IH1|].
    intro c. rewrite dropDoubleAsterisks_cons2.
    destruct (c =? 0x2A) eqn:Hc, (d =? 0x2A) eqn:Hd; simpl andb; cbv iota.
    + now rewrite !dropAsterisks_cons, Hc, Hd.
    + now rewrite (dropAsterisks_cons c), (dropAsterisks_cons c (d :: s)), Hc, IH1.
    + now rewrite (dropAsterisks_cons c), (dropAsterisks_cons c (d :: s)), Hc, IH1.
    + now rewrite (dropAsterisks_cons c), (dropAsterisks_cons c (d :: s)), Hc, IH1.
Qed.

Lemma dropAsterisks_dropDoubleAsterisks (s : jsstring) :
  dropAsterisks (dropDoubleAsterisks s) = dropAsterisks s.
Proof. apply dropAsterisks_dropDoubleAsterisks_cons. Qed.

(** Both [replace] calls of the source together. *)
Lemma replaceAll_both (s : jsstring) :
  replaceAll (js "*") [] (replaceAll (js "**") [] s) = dropAsterisks s.
Proof.
  now rewrite replaceAll_asterisk, replaceAll_double_asterisk,
    dropAsterisks_dropDoubleAsterisks.
Qed.

Lemma noAsterisk_dropAsterisks (s : jsstring) : noAsterisk (dropAsterisks s) = true.
Proof.
  induction s as [|c s IH]; [reflexivity|].
  rewrite dropAsterisks_cons. destruct (c =? 0x2A) eqn:Hc; [exact IH|].
  simpl. now rewrite Hc, IH.
Qed.

Lemma dropAsterisks_noAsterisk (s : jsstring) :
  noAsterisk s = true -> dropAsterisks s = s.
Proof.
  induction s as [|c s IH]; [reflexivity|].
  intro H. simpl in H. apply andb_true_iff in H. destruct H as [Hc Hs].
  rewrite dropAsterisks_cons.
  destruct (c =? 0x2A); [discriminate|]. now rewrite IH.
Qed.

Lemma noAsterisk_app (a b : jsstring) :
  noAsterisk (a ++ b) = noAsterisk a && noAsterisk b.
Proof. apply forallb_app. Qed.

(** ** What [trim] keeps *)

Lemma startsWith_split (s pre : jsstring) :
  startsWith s pre = true -> exists rest, s = pre ++ rest.
Proof.
  revert s. induction pre as [|p pre IH]; intros s H.
  - now exists s.
  - destruct s as [|c s]; [discriminate|].
    simpl in H. apply andb_true_iff in H. destruct H as [Hc Hs].
    apply N.eqb_eq in Hc. subst c.
    destruct (IH s Hs) as [rest ->]. now exists rest.
Qed.

Lemma trimStart_app (x y : jsstring) :
  trimStart (x ++ y) =
    match trimStart x with
    | [] => trimStart y
    | c :: t => (c :: t) ++ y
    end.
Proof.
  induction x as [|c x IH]; simpl.
  - reflexivity.
  - destruct (isWhiteSpace c); [exact IH | reflexivity].
Qed.

(** A text that does not end in white space keeps what is appended to it, up
    to the white space at the end. *)
Lemma trimEnd_app (a b : jsstring) :
  trimEnd a = a -> trimEnd (a ++ b) = a ++ trimEnd b.
Proof.
  unfold trimEnd. intro Ha.
  rewrite rev_app_distr, trimStart_app.
  destruct (trimStart (rev b)) as [|c t].
  - simpl. now rewrite app_nil_r.
  - now rewrite rev_app_distr, rev_involutive.
Qed.

Lemma trim_app (pre rest : jsstring) :
  match pre with c :: _ => negb (isWhiteSpace c) | [] => false end = true ->
  trimEnd pre = pre ->
  trim (pre ++ rest) = pre ++ trimEnd rest.
Proof.
  intros Hstart Hend. unfold trim.
  destruct pre as [|c pre]; [discriminate|].
  apply negb_true_iff in Hstart.
  change (trimStart ((c :: pre) ++ rest))
    with (if isWhiteSpace c then trimStart (pre ++ rest) else (c :: pre) ++ rest).
  rewrite Hstart. now apply trimEnd_app.
Qed.

Lemma requiredPrefix_start :
  match requiredPrefix with c :: _ => negb (isWhiteSpace c) | [] => false end = true.
Proof. vm_compute. reflexivity. Qed.

Lemma requiredPrefix_end : trimEnd requiredPrefix = requiredPrefix.
Proof. vm_compute. reflexivity. Qed.

Lemma requiredPrefix_trim (rest : jsstring) :
  trim (requiredPrefix ++ rest) = requiredPrefix ++ trimEnd rest.
Proof. exact (trim_app requiredPrefix rest requiredPrefix_start requiredPrefix_end). Qed.

Lemma forallb_trimStart (p : N -> bool) (s : jsstring) :
  forallb p s = true -> forallb p (trimStart s) = true.
Proof.
  induction s as [|c s IH]; simpl; intro H; [reflexivity|].
  destruct (isWhiteSpace c); [|exact H].
  apply andb_true_iff in H. now apply IH.
Qed.

Lemma forallb_rev (p : N -> bool) (s : jsstring) :
  forallb p (rev s) = forallb p s.
Proof.
  induction s as [|c s IH]; simpl; [reflexivity|].
  rewrite forallb_app, IH. simpl. rewrite andb_true_r. apply andb_comm.
Qed.

Lemma forallb_trimEnd (p : N -> bool) (s : jsstring) :
  forallb p s = true -> forallb p (trimEnd s) = true.
Proof.
  intro H. unfold trimEnd. rewrite forallb_rev.
  apply forallb_trimStart. now rewrite forallb_rev.
Qed.

Lemma forallb_trim (p : N -> bool) (s : jsstring) :
  forallb p s = true -> forallb p (trim s) = true.
Proof. intro H. now apply forallb_trimEnd, forallb_trimStart. Qed.

Lemma forallb_dropAsterisks (p : N -> bool) (s : jsstring) :
  forallb p s = true -> forallb p (dropAsterisks s) = true.
Proof.
  induction s as [|c s IH]; intro H; [reflexivity|].
  simpl in H. apply andb_true_iff in H. destruct H as [Hc Hs].
  rewrite dropAsterisks_cons. destruct (c =? 0x2A); [now apply IH|].
  simpl. now rewrite Hc, IH.
Qed.

Lemma noAsterisk_trim (s : jsstring) : noAsterisk s = true -> noAsterisk (trim s) = true.
Proof. unfold noAsterisk. apply forallb_trim. Qed.

Lemma isUpperAscii_trim (s : jsstring) :
  isUpperAscii s = true -> isUpperAscii (trim s) = true.
Proof. unfold isUpperAscii. apply forallb_trim. Qed.

Lemma isUpperAscii_dropAsterisks (s : jsstring) :
  isUpperAscii s = true -> isUpperAscii (dropAsterisks s) = true.
Proof. unfold isUpperAscii. apply forallb_dropAsterisks. Qed.

(** ** The upper-case mapping on Basic Latin *)

Lemma codePoints_cons (c : N) (rest : jsstring) :
  isHighSurrogate c = false -> codePoints (c :: rest) = c :: codePoints rest.
Proof.
  intro H. destruct rest as [|d rest']; [reflexivity|].
  cbn [codePoints]. now rewrite H.
Qed.

Lemma asciiUpper_lt (c : N) : c < 0x80 -> asciiUpper c < 0x80.
Proof.
  intro H. unfold asciiUpper.
  destruct ((0x61 <=? c) && (c <=? 0x7A)); lia.
Qed.

Section UpperCase.
Context {table : CaseTable}.

Lemma toUpperCase_nil : toUpperCase [] = [].
Proof. reflexivity. Qed.

Lemma toUpperCase_ascii (s : jsstring) :
  isAscii s = true -> toUpperCase s = map asciiUpper s.
Proof.
  unfold toUpperCase.
  induction s as [|c s IH]; intro H; [reflexivity|].
  simpl in H. apply andb_true_iff in H. destruct H as [Hc Hs].
  apply N.ltb_lt in Hc.
  rewrite codePoints_cons.
  - cbn [flat_map map]. rewrite (IH Hs), (upperCodePoint_ascii c Hc).
    cbn [flat_map]. unfold encodeUtf16.
    pose proof (asciiUpper_lt c Hc) as Hu.
    replace (asciiUpper c <? 0x10000) with true by (symmetry; apply N.ltb_lt; lia).
    reflexivity.
  - unfold isHighSurrogate. apply andb_false_iff. left. apply N.leb_gt. lia.
Qed.

Lemma isUpperAscii_isAscii (s : jsstring) : isUpperAscii s = true -> isAscii s = true.
Proof.
  induction s as [|c s IH]; simpl; intro H; [reflexivity|].
  apply andb_true_iff in H. destruct H as [Hc Hs].
  apply andb_true_iff in Hc. destruct Hc as [Hc _].
  now rewrite Hc, IH.
Qed.

Lemma map_asciiUpper_isUpperAscii (s : jsstring) :
  isUpperAscii s = true -> map asciiUpper s = s.
Proof.
  induction s as [|c s IH]; simpl; intro H; [reflexivity|].
  apply andb_true_iff in H. destruct H as [Hc Hs].
  apply andb_true_iff in Hc. destruct Hc as [_ Hc]. apply N.eqb_eq in Hc.
  now rewrite Hc, IH.
Qed.

Lemma isUpperAscii_map_asciiUpper (s : jsstring) :
  isAscii s = true -> isUpperAscii (map asciiUpper s) = true.
Proof.
  induction s as [|c s IH]; simpl; intro H; [reflexivity|].
  apply andb_true_iff in H. destruct H as [Hc Hs].
  rewrite (IH Hs), andb_true_r. apply N.ltb_lt in Hc.
  apply andb_true_iff. split.
  - apply N.ltb_lt. now apply asciiUpper_lt.
  - apply N.eqb_eq. unfold asciiUpper.
    destruct ((0x61 <=? c) && (c <=? 0x7A)) eqn:E.
    + apply andb_true_iff in E. destruct E as [E1 E2].
      apply N.leb_le in E1, E2.
      replace ((0x61 <=? c - 0x20) && (c - 0x20 <=? 0x7A)) with false; [reflexivity|].
      symmetry. apply andb_false_iff. left. apply N.leb_gt. lia.
    + now rewrite E.
Qed.

(** [toUpperCase] leaves upper-case Basic Latin as it is. *)
Lemma toUpperCase_isUpperAscii (s : jsstring) :
  isUpperAscii s = true -> toUpperCase s = s.
Proof.
  intro H. rewrite toUpperCase_ascii by now apply isUpperAscii_isAscii.
  now apply map_asciiUpper_isUpperAscii.
Qed.

End UpperCase.

(** ** The output normaliser *)

Section NormalizerProperties.
Context {table : CaseTable}.

(** The three outcomes of the prefix check, on the text with its asterisks
    removed. *)
Lemma normalizeOutput_cases (raw : jsstring) :
  let t := dropAsterisks (trim (toUpperCase raw)) in
  normalizeOutput raw =
    if startsWith t requiredPrefix then t
    else if startsWith t (js "REFERENTE") then js "PELA DESPESA EMPENHADA " ++ t
    else requiredPrefix ++ js " REFERENTE A " ++ t.
Proof.
  intro t. unfold normalizeOutput. rewrite replaceAll_both. fold t.
  now destruct (startsWith t requiredPrefix).
Qed.

Lemma normalizeOutput_startsWith (raw : jsstring) :
  startsWith (normalizeOutput raw) requiredPrefix = true.
Proof.
  rewrite normalizeOutput_cases.
  destruct (startsWith (dropAsterisks (trim (toUpperCase raw))) requiredPrefix) eqn:Hp.
  - exact Hp.
  - destruct (startsWith _ (js "REFERENTE")).
    + now apply startsWith_app.
    + apply startsWith_prepend.
Qed.

Lemma normalizeOutput_noAsterisk (raw : jsstring) :
  noAsterisk (normalizeOutput raw) = true.
Proof.
  rewrite normalizeOutput_cases.
  pose proof (noAsterisk_dropAsterisks (trim (toUpperCase raw))) as Ht.
  destruct (startsWith _ requiredPrefix); [exact Ht|].
  destruct (startsWith _ (js "REFERENTE")).
  - rewrite noAsterisk_app, Ht. reflexivity.
  - rewrite !noAsterisk_app, Ht. reflexivity.
Qed.

(** C1. The normaliser of the source is the three-step definition of the
    specification: upper-case and trim; remove the double asterisks, then the
    single ones; keep a text that starts with PELA DESPESA EMPENHADA, put
    PELA DESPESA EMPENHADA and a space before one that starts with REFERENTE,
    and PELA DESPESA EMPENHADA REFERENTE A and a space before any other. *)
Theorem normalizeOutput_eq_spec (raw : jsstring) :
  normalizeOutput raw = normalize_spec raw.
Proof.
  unfold normalizeOutput, normalize_spec, spec_step3, spec_step2, spec_step1.
  rewrite replaceAll_asterisk, replaceAll_double_asterisk.
  set (t := dropAsterisks (dropDoubleAsterisks (trim (toUpperCase raw)))).
  unfold requiredPrefix.
  destruct (startsWith t (js "PELA DESPESA EMPENHADA")); simpl negb; cbv iota.
  - reflexivity.
  - destruct (startsWith t (js "REFERENTE")).
    + reflexivity.
    + rewrite app_assoc. f_equal.
Qed.

(** C10. Every output of the normaliser starts with PELA DESPESA EMPENHADA;
    a text that already starts with it once upper-cased, trimmed and stripped
    of asterisks is returned as it is, so the output need not start with
    PELA DESPESA EMPENHADA REFERENTE A. *)
Theorem normalizeOutput_prefix :
  (forall raw, startsWith (normalizeOutput raw) (js "PELA DESPESA EMPENHADA") = true)
  /\ (forall raw,
        startsWith
          (replaceAll (js "*") [] (replaceAll (js "**") [] (trim (toUpperCase raw))))
          (js "PELA DESPESA EMPENHADA") = true ->
        normalizeOutput raw
        = replaceAll (js "*") [] (replaceAll (js "**") [] (trim (toUpperCase raw))))
  /\ normalizeOutput (js "PELA DESPESA EMPENHADA COM O CONTRATO 5")
     = js "PELA DESPESA EMPENHADA COM O CONTRATO 5"
  /\ startsWith (normalizeOutput (js "PELA DESPESA EMPENHADA COM O CONTRATO 5"))
       (js "PELA DESPESA EMPENHADA REFERENTE A") = false.
Proof.
  assert (Hex : normalizeOutput (js "PELA DESPESA EMPENHADA COM O CONTRATO 5")
                = js "PELA DESPESA EMPENHADA COM O CONTRATO 5").
  { unfold normalizeOutput. rewrite toUpperCase_ascii by (vm_compute; reflexivity).
    vm_compute. reflexivity. }
  split; [|split; [|split]].
  - intro raw. rewrite <- requiredPrefix_js. apply normalizeOutput_startsWith.
  - intros raw H. unfold normalizeOutput, requiredPrefix.
    now rewrite H.
  - exact Hex.
  - rewrite Hex. vm_compute. reflexivity.
Qed.

(** C2, as the code has it.  When the output of the normaliser is left as it
    is by [toUpperCase] and by [trim] (it does not end in white space), the
    normaliser leaves it as it is too. *)
Theorem normalizeOutput_idempotent_when_stable (raw : jsstring) :
  toUpperCase (normalizeOutput raw) = normalizeOutput raw ->
  trim (normalizeOutput raw) = normalizeOutput raw ->
  normalizeOutput (normalizeOutput raw) = normalizeOutput raw.
Proof.
  intros Hupper Htrim.
  rewrite (normalizeOutput_cases (normalizeOutput raw)).
  cbv zeta. rewrite Hupper, Htrim.
  rewrite (dropAsterisks_noAsterisk _ (normalizeOutput_noAsterisk raw)).
  now rewrite normalizeOutput_startsWith.
Qed.

(** What a second pass does to an output that [toUpperCase] leaves as it is: it
    trims it, and nothing else. *)
Lemma normalizeOutput_twice (raw : jsstring) :
  toUpperCase (normalizeOutput raw) = normalizeOutput raw ->
  normalizeOutput (normalizeOutput raw) = trim (normalizeOutput raw).
Proof.
  intro Hupper.
  rewrite (normalizeOutput_cases (normalizeOutput raw)). cbv zeta. rewrite Hupper.
  rewrite (dropAsterisks_noAsterisk _ (noAsterisk_trim _ (normalizeOutput_noAsterisk raw))).
  assert (Hs : startsWith (trim (normalizeOutput raw)) requiredPrefix = true).
  { destruct (startsWith_split _ _ (normalizeOutput_startsWith raw)) as [rest ->].
    rewrite requiredPrefix_trim. apply startsWith_prepend. }
  now rewrite Hs.
Qed.

Lemma isUpperAscii_app (a b : jsstring) :
  isUpperAscii (a ++ b) = isUpperAscii a && isUpperAscii b.
Proof. apply forallb_app. Qed.

Lemma isUpperAscii_requiredPrefix : isUpperAscii requiredPrefix = true.
Proof. vm_compute. reflexivity. Qed.

Lemma isUpperAscii_referente : isUpperAscii (js " REFERENTE A ") = true.
Proof. vm_compute. reflexivity. Qed.

Lemma isUpperAscii_pela : isUpperAscii (js "PELA DESPESA EMPENHADA ") = true.
Proof. vm_compute. reflexivity. Qed.

(** On Basic Latin input the output is upper-case Basic Latin, so only the
    white space at its end stands between the normaliser and idempotence. *)
Lemma normalizeOutput_isUpperAscii (raw : jsstring) :
  isAscii raw = true -> isUpperAscii (normalizeOutput raw) = true.
Proof.
  intro H. rewrite normalizeOutput_cases. cbv zeta.
  rewrite toUpperCase_ascii by exact H.
  pose proof (isUpperAscii_dropAsterisks _
                (isUpperAscii_trim _ (isUpperAscii_map_asciiUpper raw H))) as Ht.
  destruct (startsWith _ requiredPrefix); [exact Ht|].
  destruct (startsWith _ (js "REFERENTE")).
  - now rewrite isUpperAscii_app, Ht, isUpperAscii_pela.
  - now rewrite !isUpperAscii_app, Ht, isUpperAscii_requiredPrefix, isUpperAscii_referente.
Qed.

Lemma normalizeOutput_twice_ascii (raw : jsstring) :
  isAscii raw = true ->
  normalizeOutput (normalizeOutput raw) = trim (normalizeOutput raw).
Proof.
  intro H. apply normalizeOutput_twice.
  now apply toUpperCase_isUpperAscii, normalizeOutput_isUpperAscii.
Qed.

End NormalizerProperties.

(** The examples of the specification (§8), run with [sampleTable]. *)

Example normalize_referente :
  @normalizeOutput sampleTable (js "REFERENTE A TESTE")
  = js "PELA DESPESA EMPENHADA REFERENTE A TESTE".
Proof. vm_compute. reflexivity. Qed.

Example normalize_lower_case :
  @normalizeOutput sampleTable (js "pela despesa empenhada referente a compra de papel")
  = js "PELA DESPESA EMPENHADA REFERENTE A COMPRA DE PAPEL".
Proof. vm_compute. reflexivity. Qed.

Example normalize_markdown :
  @normalizeOutput sampleTable (js "Aquisição de **material** de limpeza")
  = js "PELA DESPESA EMPENHADA REFERENTE A AQUISIÇÃO DE MATERIAL DE LIMPEZA".
Proof. vm_compute. reflexivity. Qed.

(** C2 fails on the empty text: the normaliser answers the prefix followed by a
    space, and a second pass trims that space. *)
Lemma normalizeOutput_not_idempotent :
  @normalizeOutput sampleTable [] = js "PELA DESPESA EMPENHADA REFERENTE A "
  /\ @normalizeOutput sampleTable (@normalizeOutput sampleTable [])
     = js "PELA DESPESA EMPENHADA REFERENTE A"
  /\ @normalizeOutput sampleTable (@normalizeOutput sampleTable [])
     <> @normalizeOutput sampleTable [].
Proof.
  split; [|split].
  - vm_compute. reflexivity.
  - vm_compute. reflexivity.
  - vm_compute. discriminate.
Qed.

Lemma normalizeOutput_idempotent_when_stable_witness :
  @normalizeOutput sampleTable (@normalizeOutput sampleTable (js "REFERENTE A TESTE"))
  = @normalizeOutput sampleTable (js "REFERENTE A TESTE").
Proof.
  apply (@normalizeOutput_idempotent_when_stable sampleTable (js "REFERENTE A TESTE")).
  - vm_compute. reflexivity.
  - vm_compute. reflexivity.
Defined.

(** The same on any table, and on any text that is empty once trimmed and
    stripped: the output ends in the space that follows REFERENTE A. *)
Lemma normalizeOutput_nil {table : CaseTable} :
  normalizeOutput [] = js "PELA DESPESA EMPENHADA REFERENTE A ".
Proof. reflexivity. Qed.

(** Why the amended C2 asks that [toUpperCase] leave the output as it is: an
    asterisk between the two halves of a surrogate pair hides a lower-case
    letter from the first pass, and the second pass finds it. *)
Remark normalizeOutput_joins_surrogates :
  let raw := [0xD801; 0x2A; 0xDC28] in
  @normalizeOutput sampleTable raw
  = js "PELA DESPESA EMPENHADA REFERENTE A " ++ [0xD801; 0xDC28]
  /\ trim (@normalizeOutput sampleTable raw) = @normalizeOutput sampleTable raw
  /\ @normalizeOutput sampleTable (@normalizeOutput sampleTable raw)
     = js "PELA DESPESA EMPENHADA REFERENTE A " ++ [0xD801; 0xDC00].
Proof.
  split; [|split]; vm_compute; reflexivity.
Qed.

(** ** The file validation of [processFile] *)

Lemma strictEquals_eq (a b : jsstring) : strictEquals a b = true <-> a = b.
Proof.
  revert b. induction a as [|c a IH]; intros [|d b]; simpl; split; intro H;
    try reflexivity; try discriminate.
  - apply andb_true_iff in H. destruct H as [Hc Ha].
    apply N.eqb_eq in Hc. apply IH in Ha. now subst.
  - injection H as -> ->. rewrite N.eqb_refl. now apply IH.
Qed.

Lemma includes_In (l : list jsstring) (x : jsstring) :
  includes l x = true <-> In x l.
Proof.
  unfold includes. rewrite existsb_exists. split.
  - intros [y [Hy Heq]]. apply strictEquals_eq in Heq. now subst.
  - intro H. exists x. split; [exact H|]. now apply strictEquals_eq.
Qed.

Lemma includes_not_In (l : list jsstring) (x : jsstring) :
  ~ In x l -> includes l x = false.
Proof.
  intro H. destruct (includes l x) eqn:E; [|reflexivity].
  apply includes_In in E. contradiction.
Qed.

Lemma messages_differ : tooLargeMessage <> invalidTypeMessage.
Proof. vm_compute. discriminate. Qed.

Section Validation.
Variable host : Host.

(** The first early return. *)
Lemma processFile_over_size (f : File) (st : AppState) :
  maxSize < size f ->
  processFile host f st = setErrorMsg (Some tooLargeMessage) st.
Proof.
  intro H. unfold processFile. apply N.ltb_lt in H. now rewrite H.
Qed.

(** Past the size check, the error message is never the one for the size. *)
Lemma processFile_within_size (f : File) (st : AppState) :
  size f <= maxSize ->
  errorMsg (processFile host f st) = Some invalidTypeMessage
  \/ errorMsg (processFile host f st) = None.
Proof.
  intro H. unfold processFile. apply N.ltb_ge in H. rewrite H.
  destruct (includes validTypes (type f)); cbv [negb]; [right | left]; reflexivity.
Qed.

(** C3. [processFile] refuses a file with the message for the size exactly
    when its size is above 20 * 1024 * 1024 bytes, whatever its MIME type:
    a file of exactly that size is not refused for its size, and the refusal
    changes nothing but the error message. *)
Theorem processFile_too_large_iff (f : File) (st : AppState) :
  (errorMsg (processFile host f st) = Some tooLargeMessage
   <-> 20 * 1024 * 1024 < size f)
  /\ (forall mime : jsstring,
        errorMsg (processFile host {| name := name f; size := size f; type := mime |} st)
        = Some tooLargeMessage
        <-> errorMsg (processFile host f st) = Some tooLargeMessage)
  /\ (20 * 1024 * 1024 < size f ->
      processFile host f st = setErrorMsg (Some tooLargeMessage) st).
Proof.
  assert (Hiff : forall g : File,
    errorMsg (processFile host g st) = Some tooLargeMessage <-> maxSize < size g).
  { intro g. split.
    - intro H. destruct (N.lt_ge_cases maxSize (size g)) as [Hlt | Hge]; [exact Hlt|].
      destruct (processFile_within_size g st Hge) as [E | E]; rewrite E in H.
      + exfalso. apply messages_differ.
        exact (f_equal (fun o => match o with Some m => m | None => [] end) (eq_sym H)).
      + discriminate.
    - intro H. now rewrite processFile_over_size. }
  split; [|split].
  - apply Hiff.
  - intro mime. now rewrite !Hiff.
  - apply processFile_over_size.
Qed.

(** C4, as the code has it.  A file whose MIME type is none of the five
    accepted ones is always refused, and nothing but the error message
    changes: the message is the one for the type when the size is within
    20 * 1024 * 1024 bytes, and the one for the size above it, because the
    size is checked first. *)
Theorem processFile_invalid_type (f : File) (st : AppState) :
  ~ In (type f)
       [js "application/pdf"; js "image/png"; js "image/jpeg"; js "image/jpg";
        js "image/webp"] ->
  processFile host f st
  = setErrorMsg
      (Some (if 20 * 1024 * 1024 <? size f then tooLargeMessage else invalidTypeMessage))
      st.
Proof.
  intro H. unfold processFile.
  change (20 * 1024 * 1024) with maxSize.
  destruct (maxSize <? size f); [reflexivity|].
  fold validTypes in H. now rewrite (includes_not_In _ _ H).
Qed.

End Validation.

Lemma text_plain_not_valid : ~ In (js "text/plain") validTypes.
Proof.
  intro H. apply includes_In in H. vm_compute in H. discriminate.
Qed.

(** C4 fails on a file of 25 MiB declared as text/plain: it is refused with the
    message for the size, not the one for the type. *)
Lemma processFile_invalid_type_over_size :
  type largeTextFile = js "text/plain"
  /\ includes validTypes (type largeTextFile) = false
  /\ errorMsg (processFile (answeringHost None) largeTextFile initialState)
     = Some (js "O arquivo é muito grande. O limite é 20MB.")
  /\ errorMsg (processFile (answeringHost None) largeTextFile initialState)
     <> Some (js "Tipo de arquivo inválido. Use PDF ou Imagens (JPG, PNG).").
Proof.
  repeat split; try (vm_compute; reflexivity).
  vm_compute. discriminate.
Qed.

Lemma processFile_invalid_type_witness :
  processFile (answeringHost None) smallTextFile initialState
  = setErrorMsg
      (Some (if 20 * 1024 * 1024 <? size smallTextFile then tooLargeMessage
             else invalidTypeMessage))
      initialState.
Proof.
  apply processFile_invalid_type.
  exact text_plain_not_valid.
Defined.

(** A file of exactly 20 MiB passes the size check. *)
Example processFile_exactly_20MiB :
  processFile (answeringHost None)
    {| name := js "nota.pdf"; size := 20 * 1024 * 1024; type := js "application/pdf" |}
    initialState
  = {| status := IDLE;
       fileData := Some
         {| file := {| name := js "nota.pdf"; size := 20 * 1024 * 1024;
                       type := js "application/pdf" |};
            previewUrl := Some
              (js "https://upload.wikimedia.org/wikipedia/commons/8/87/PDF_file_icon.svg") |};
       generatedText := []; errorMsg := None; isEditing := false; isDragging := false;
       fileInputRef := Some [] |}.
Proof. vm_compute. reflexivity. Qed.

(** ** [generateEmpenhoDescription]: failures and the empty answer *)

Section ServiceProperties.
Context {table : CaseTable} (host : Host).

(** Whatever is thrown inside the [try] block, the caller sees one value. *)
Lemma generateEmpenhoDescription_rejection (f : File) (r : JsValue) :
  snd (generateEmpenhoDescription host f) = Rejected r ->
  r = ErrorObject failureMessage.
Proof.
  unfold generateEmpenhoDescription.
  destruct (_ <- fileToGenerativePart host f ;; _); cbn [snd]; intro H.
  - discriminate.
  - injection H as <-. reflexivity.
Qed.

(** C6. When reading the file or calling the model fails with any value [e],
    [generateEmpenhoDescription] rejects with an [Error] whose message is the
    fixed one; [e] goes to [console.error] and not to the caller. *)
Theorem generateEmpenhoDescription_failure (f : File) (e : JsValue) :
  fileToGenerativePart host f = Rejected e
  \/ (exists filePart,
        fileToGenerativePart host f = Fulfilled filePart
        /\ generateContent host (request filePart) = Rejected e) ->
  generateEmpenhoDescription host f = ([e], Rejected (ErrorObject failureMessage))
  /\ failureMessage
     = js "Falha ao processar o documento. Verifique se o arquivo é válido e tente novamente.".
Proof.
  intro H. split; [|unfold failureMessage; reflexivity].
  revert H. unfold generateEmpenhoDescription.
  intros [Hread | [filePart [Hread Hcall]]]; rewrite Hread; simpl.
  - reflexivity.
  - now rewrite Hcall.
Qed.

(** C7. When the model's response has no text, [generateEmpenhoDescription]
    does not reject: it resolves with the normaliser's output on the empty
    string, which is the prefix followed by a space. *)
Theorem generateEmpenhoDescription_empty_response (f : File) (filePart : InlineData) :
  fileToGenerativePart host f = Fulfilled filePart ->
  generateContent host (request filePart) = Fulfilled {| text := None |} ->
  generateEmpenhoDescription host f = ([], Fulfilled (normalizeOutput []))
  /\ normalizeOutput [] = js "PELA DESPESA EMPENHADA REFERENTE A ".
Proof.
  intros Hread Hcall. split; [|reflexivity].
  unfold generateEmpenhoDescription. rewrite Hread. simpl. now rewrite Hcall.
Qed.

(** The empty string as the response's text is falsy too. *)
Lemma generateEmpenhoDescription_empty_text (f : File) (filePart : InlineData) :
  fileToGenerativePart host f = Fulfilled filePart ->
  generateContent host (request filePart) = Fulfilled {| text := Some [] |} ->
  generateEmpenhoDescription host f = ([], Fulfilled (normalizeOutput [])).
Proof.
  intros Hread Hcall.
  unfold generateEmpenhoDescription. rewrite Hread. simpl. now rewrite Hcall.
Qed.

End ServiceProperties.

Lemma generateEmpenhoDescription_failure_witness :
  @generateEmpenhoDescription sampleTable
    (failingHost (ErrorObject (js "503 Service Unavailable"))) pngFile
  = ([ErrorObject (js "503 Service Unavailable")], Rejected (ErrorObject failureMessage)).
Proof.
  apply (@generateEmpenhoDescription_failure sampleTable
           (failingHost (ErrorObject (js "503 Service Unavailable"))) pngFile).
  right. eexists. split; reflexivity.
Defined.

Lemma generateEmpenhoDescription_empty_response_witness :
  @generateEmpenhoDescription sampleTable (answeringHost None) pngFile
  = ([], Fulfilled (@normalizeOutput sampleTable []))
  /\ @normalizeOutput sampleTable [] = js "PELA DESPESA EMPENHADA REFERENTE A ".
Proof.
  apply (@generateEmpenhoDescription_empty_response sampleTable (answeringHost None)
           pngFile {| data := Some (js "iVBORw0KGgo="); mimeType := js "image/png" |}).
  - vm_compute. reflexivity.
  - reflexivity.
Defined.

(** ** The session: [handleProcess], [handleReset] and the textarea *)

Section Session.
Context {table : CaseTable} (host : Host).

(** [handleProcess] is its two halves, the second run on the outcome of
    [generateEmpenhoDescription]. *)
Lemma handleProcess_halves (st : AppState) :
  handleProcess host st =
    match handleProcess_begin st, fileData st with
    | Some processing, Some fd =>
        handleProcess_settle (snd (generateEmpenhoDescription host (file fd))) processing
    | _, _ => st
    end.
Proof.
  unfold handleProcess, handleProcess_begin. now destruct (fileData st).
Qed.

Lemma handleProcess_begin_status (st processing : AppState) :
  handleProcess_begin st = Some processing ->
  status processing = PROCESSING
  /\ errorMsg processing = None
  /\ generatedText processing = generatedText st
  /\ fileData processing = fileData st.
Proof.
  unfold handleProcess_begin. destruct (fileData st) eqn:Hfd; [|discriminate].
  intro H. injection H as <-. repeat split; try reflexivity.
  simpl. exact Hfd.
Qed.

(** C5, as the code has it.  When the generation fails, the session stores the
    message of the error (the fall-back message for a value that is not an
    [Error]) and the status ERROR, and leaves the generated text as it was; the
    result section is not rendered in that state. *)
Theorem handleProcess_settle_failure (err : JsValue) (st : AppState) :
  status (handleProcess_settle (Rejected err) st) = ERROR
  /\ errorMsg (handleProcess_settle (Rejected err) st)
     = Some match err with
            | ErrorObject message => message
            | OtherValue _ => unknownErrorMessage
            end
  /\ generatedText (handleProcess_settle (Rejected err) st) = generatedText st
  /\ fileData (handleProcess_settle (Rejected err) st) = fileData st
  /\ resultSectionShown (handleProcess_settle (Rejected err) st) = false.
Proof. repeat split. Qed.

(** The same for the whole handler: a failed generation ends in ERROR with the
    fixed message, and the text of an earlier generation is still there. *)
Lemma handleProcess_failure (st : AppState) (fd : FileData) (e : JsValue) :
  fileData st = Some fd ->
  snd (generateEmpenhoDescription host (file fd)) = Rejected e ->
  status (handleProcess host st) = ERROR
  /\ errorMsg (handleProcess host st) = Some failureMessage
  /\ generatedText (handleProcess host st) = generatedText st.
Proof.
  intros Hfd Hgen. unfold handleProcess. rewrite Hfd, Hgen.
  apply generateEmpenhoDescription_rejection in Hgen. subst e.
  repeat split.
Qed.

Lemma handleProcess_success (st : AppState) (fd : FileData) (t : jsstring) :
  fileData st = Some fd ->
  snd (generateEmpenhoDescription host (file fd)) = Fulfilled t ->
  handleProcess host st
  = st |> setStatus PROCESSING |> setErrorMsg None
       |> setGeneratedText t |> setStatus SUCCESS |> setIsEditing true.
Proof.
  intros Hfd Hgen. unfold handleProcess. now rewrite Hfd, Hgen.
Qed.

(** C8. After [handleReset], whatever the state was: no file, an empty
    generated text, the status IDLE, no error message, edit mode off. *)
Theorem handleReset_clears (st : AppState) :
  fileData (handleReset st) = None
  /\ generatedText (handleReset st) = []
  /\ errorMsg (handleReset st) = None
  /\ status (handleReset st) = IDLE
  /\ isEditing (handleReset st) = false.
Proof. repeat split. Qed.

(** C9. In the state SUCCESS, an edit stores the upper-cased text of the
    textarea and changes nothing else; the text is not normalised again: its
    asterisks stay and no prefix is put before it. *)
Theorem textArea_onChange_upper_only (value : jsstring) (st : AppState) :
  status st = SUCCESS ->
  textArea_onChange value st = setGeneratedText (toUpperCase value) st
  /\ generatedText (textArea_onChange value st) = toUpperCase value
  /\ status (textArea_onChange value st) = SUCCESS
  /\ generatedText (textArea_onChange (js "nota **42**") st) = js "NOTA **42**"
  /\ normalizeOutput (js "nota **42**") = js "PELA DESPESA EMPENHADA REFERENTE A NOTA 42".
Proof.
  intro Hs.
  assert (Hup : toUpperCase (js "nota **42**") = js "NOTA **42**").
  { rewrite toUpperCase_ascii by (vm_compute; reflexivity). vm_compute. reflexivity. }
  repeat split.
  - exact Hs.
  - simpl. exact Hup.
  - unfold normalizeOutput. rewrite Hup. vm_compute. reflexivity.
Qed.

End Session.

Lemma handleReset_same (st1 st2 : AppState) :
  fileInputRef st1 = fileInputRef st2 -> isDragging st1 = isDragging st2 ->
  handleReset st1 = handleReset st2.
Proof.
  intros Href Hdrag. unfold handleReset, clearFileInput. simpl.
  now rewrite Href, Hdrag.
Qed.

(** C5 fails after a first generation that succeeded: a second one that fails
    ends in ERROR with the text of the first still in the state. *)
Lemma handleProcess_keeps_stale_text :
  let succeeded :=
    initialState
    |> processFile (answeringHost None) pngFile
    |> @handleProcess sampleTable (answeringHost (Some (js "material de escritório"))) in
  let failed :=
    succeeded
    |> @handleProcess sampleTable (failingHost (OtherValue (js "network"))) in
  status succeeded = SUCCESS
  /\ generatedText succeeded
     = js "PELA DESPESA EMPENHADA REFERENTE A MATERIAL DE ESCRITÓRIO"
  /\ status failed = ERROR
  /\ errorMsg failed = Some failureMessage
  /\ generatedText failed
     = js "PELA DESPESA EMPENHADA REFERENTE A MATERIAL DE ESCRITÓRIO".
Proof.
  repeat split; vm_compute; reflexivity.
Qed.

Lemma textArea_onChange_upper_only_witness :
  generatedText
    (@textArea_onChange sampleTable (js "pela despesa de **limpeza**")
       (setStatus SUCCESS initialState))
  = js "PELA DESPESA DE **LIMPEZA**".
Proof.
  pose proof (@textArea_onChange_upper_only sampleTable
                (js "pela despesa de **limpeza**")
                (setStatus SUCCESS initialState) eq_refl) as [_ [H _]].
  rewrite H. vm_compute. reflexivity.
Defined.

(** * Further properties of the code *)

(** ** More on [trim] *)

Lemma trimStart_idempotent (s : jsstring) : trimStart (trimStart s) = trimStart s.
Proof.
  induction s as [|c s IH]; [reflexivity|].
  simpl. destruct (isWhiteSpace c) eqn:Hc; [exact IH|].
  simpl. now rewrite Hc.
Qed.

Lemma trimEnd_idempotent (s : jsstring) : trimEnd (trimEnd s) = trimEnd s.
Proof.
  unfold trimEnd. now rewrite rev_involutive, trimStart_idempotent.
Qed.

Lemma trimStart_blank_app (l s : jsstring) :
  isBlank l = true -> trimStart (l ++ s) = trimStart s.
Proof.
  induction l as [|c l IH]; [reflexivity|].
  simpl. intro H. apply andb_true_iff in H. destruct H as [Hc Hl].
  rewrite Hc. now apply IH.
Qed.

Lemma isBlank_rev (s : jsstring) : isBlank (rev s) = isBlank s.
Proof. apply forallb_rev. Qed.

Lemma trimEnd_app_blank (s r : jsstring) :
  isBlank r = true -> trimEnd (s ++ r) = trimEnd s.
Proof.
  intro H. unfold trimEnd. rewrite rev_app_distr.
  rewrite trimStart_blank_app; [reflexivity|]. now rewrite isBlank_rev.
Qed.

(** What [trimStart] leaves does not start with white space, so [trimEnd]
    keeps its first code unit. *)
Lemma trimStart_trimEnd_trimStart (s : jsstring) :
  trimStart (trimEnd (trimStart s)) = trimEnd (trimStart s).
Proof.
  induction s as [|c s IH]; [reflexivity|].
  simpl. destruct (isWhiteSpace c) eqn:Hc; [exact IH|].
  change (c :: s) with ([c] ++ s).
  rewrite trimEnd_app.
  - simpl. now rewrite Hc.
  - unfold trimEnd. simpl. now rewrite Hc.
Qed.

Lemma trim_idempotent (s : jsstring) : trim (trim s) = trim s.
Proof.
  unfold trim. now rewrite trimStart_trimEnd_trimStart, trimEnd_idempotent.
Qed.

Lemma trim_blank_around (l s r : jsstring) :
  isBlank l = true -> isBlank r = true -> trim (l ++ s ++ r) = trim s.
Proof.
  intros Hl Hr. unfold trim.
  rewrite (trimStart_blank_app l _ Hl), trimStart_app.
  destruct (trimStart s) as [|c t] eqn:Hs.
  - rewrite <- (app_nil_r r), (trimStart_blank_app r [] Hr). reflexivity.
  - now apply trimEnd_app_blank.
Qed.

Lemma asciiUpper_whiteSpace (c : N) : isWhiteSpace c = true -> asciiUpper c = c.
Proof.
  intro H. unfold asciiUpper.
  destruct ((0x61 <=? c) && (c <=? 0x7A)) eqn:E; [|reflexivity].
  apply andb_true_iff in E. destruct E as [E1 E2].
  apply N.leb_le in E1, E2.
  unfold isWhiteSpace in H. apply orb_true_iff in H. destruct H as [H | H].
  - simpl in H.
    repeat (apply orb_true_iff in H; destruct H as [H | H];
            [apply N.eqb_eq in H; lia|]).
    discriminate.
  - apply andb_true_iff in H. destruct H as [H _]. apply N.leb_le in H. lia.
Qed.

Lemma map_asciiUpper_blank (s : jsstring) : isBlank s = true -> map asciiUpper s = s.
Proof.
  induction s as [|c s IH]; [reflexivity|].
  simpl. intro H. apply andb_true_iff in H. destruct H as [Hc Hs].
  now rewrite (asciiUpper_whiteSpace c Hc), IH.
Qed.

Lemma isAscii_app (a b : jsstring) : isAscii (a ++ b) = isAscii a && isAscii b.
Proof. apply forallb_app. Qed.

(** ** More on the output normaliser *)

Section NormalizerExtras.
Context {table : CaseTable}.

(** X1. The first [replace] of the source changes nothing in the end: the two
    calls together remove every asterisk, as the second call alone does. *)
Theorem replace_double_asterisk_redundant (s : jsstring) :
  replaceAll (js "*") [] (replaceAll (js "**") [] s) = replaceAll (js "*") [] s
  /\ replaceAll (js "*") [] s = filter (fun c => negb (c =? 0x2A)) s.
Proof.
  split.
  - now rewrite replaceAll_both, replaceAll_asterisk.
  - apply replaceAll_asterisk.
Qed.

(** X2. The output of the normaliser holds no asterisk and does not start
    with white space, whatever the model answered. *)
Theorem normalizeOutput_clean (raw : jsstring) :
  noAsterisk (normalizeOutput raw) = true
  /\ trimStart (normalizeOutput raw) = normalizeOutput raw.
Proof.
  split; [apply normalizeOutput_noAsterisk|].
  destruct (startsWith_split _ _ (normalizeOutput_startsWith raw)) as [rest ->].
  rewrite trimStart_app.
  replace (trimStart requiredPrefix) with requiredPrefix by (vm_compute; reflexivity).
  now vm_compute (requiredPrefix).
Qed.

(** X3. On Basic Latin input a second pass of the normaliser only trims the
    output of the first, and a third pass changes nothing more: two passes
    reach a fixed point. *)
Theorem normalizeOutput_passes (raw : jsstring) :
  isAscii raw = true ->
  normalizeOutput (normalizeOutput raw) = trim (normalizeOutput raw)
  /\ normalizeOutput (normalizeOutput (normalizeOutput raw))
     = normalizeOutput (normalizeOutput raw).
Proof.
  intro H.
  pose proof (isUpperAscii_isAscii _ (normalizeOutput_isUpperAscii raw H)) as H1.
  split; [now apply normalizeOutput_twice_ascii|].
  rewrite (normalizeOutput_twice_ascii (normalizeOutput raw) H1).
  rewrite (normalizeOutput_twice_ascii raw H).
  apply trim_idempotent.
Qed.

(** X4. On Basic Latin input the normaliser does not see letter case: two
    texts that differ only in the case of their letters have the same output. *)
Theorem normalizeOutput_case_blind (a b : jsstring) :
  isAscii a = true -> isAscii b = true ->
  map asciiUpper a = map asciiUpper b ->
  normalizeOutput a = normalizeOutput b.
Proof.
  intros Ha Hb Hab. unfold normalizeOutput.
  now rewrite (toUpperCase_ascii a Ha), (toUpperCase_ascii b Hb), Hab.
Qed.

(** X5. Basic Latin white space around the model's answer does not count: the
    output is that of the answer alone, and an answer of white space only is
    treated as the empty answer. *)
Theorem normalizeOutput_outer_blanks (l raw r : jsstring) :
  isBlank l = true -> isAscii l = true ->
  isBlank r = true -> isAscii r = true ->
  isAscii raw = true ->
  normalizeOutput (l ++ raw ++ r) = normalizeOutput raw
  /\ normalizeOutput (l ++ r) = js "PELA DESPESA EMPENHADA REFERENTE A ".
Proof.
  intros Hl Hla Hr Hra Hraw.
  assert (Hgen : forall s, isAscii s = true ->
            normalizeOutput (l ++ s ++ r) = normalizeOutput s).
  { intros s Hs. unfold normalizeOutput.
    rewrite (toUpperCase_ascii s Hs).
    rewrite toUpperCase_ascii by now rewrite !isAscii_app, Hla, Hs, Hra.
    rewrite !map_app, (map_asciiUpper_blank l Hl), (map_asciiUpper_blank r Hr).
    now rewrite (trim_blank_around l _ r Hl Hr). }
  split; [now apply Hgen|].
  change (l ++ r) with (l ++ [] ++ r). now rewrite (Hgen [] eq_refl).
Qed.

End NormalizerExtras.

Lemma normalizeOutput_passes_witness :
  @normalizeOutput sampleTable (@normalizeOutput sampleTable (js "nota fiscal *"))
  = trim (@normalizeOutput sampleTable (js "nota fiscal *"))
  /\ @normalizeOutput sampleTable
       (@normalizeOutput sampleTable (@normalizeOutput sampleTable (js "nota fiscal *")))
     = @normalizeOutput sampleTable (@normalizeOutput sampleTable (js "nota fiscal *")).
Proof.
  apply (@normalizeOutput_passes sampleTable (js "nota fiscal *")).
  vm_compute. reflexivity.
Defined.

Lemma normalizeOutput_case_blind_witness :
  @normalizeOutput sampleTable (js "Referente a Teste")
  = @normalizeOutput sampleTable (js "REFERENTE A teste").
Proof.
  apply (@normalizeOutput_case_blind sampleTable
           (js "Referente a Teste") (js "REFERENTE A teste")).
  - vm_compute. reflexivity.
  - vm_compute. reflexivity.
  - vm_compute. reflexivity.
Defined.

Lemma normalizeOutput_outer_blanks_witness :
  @normalizeOutput sampleTable ([0xA; 0x20] ++ js "compra de papel" ++ [0x20; 0xA])
  = @normalizeOutput sampleTable (js "compra de papel")
  /\ @normalizeOutput sampleTable ([0xA; 0x20] ++ [0x20; 0xA])
     = js "PELA DESPESA EMPENHADA REFERENTE A ".
Proof.
  apply (@normalizeOutput_outer_blanks sampleTable
           [0xA; 0x20] (js "compra de papel") [0x20; 0xA]);
    vm_compute; reflexivity.
Defined.

(** ** More on [processFile] and the drop handlers *)

(** Each accepted MIME type is either an image or the PDF type, so the chain
    that chooses the preview never falls through. *)
Lemma validTypes_preview (t : jsstring) :
  In t validTypes ->
  startsWith t (js "image/") = true
  \/ (startsWith t (js "image/") = false
      /\ strictEquals t (js "application/pdf") = true).
Proof.
  unfold validTypes. simpl.
  intros [<- | [<- | [<- | [<- | [<- | []]]]]];
    vm_compute; auto.
Qed.

Lemma processFile_isDragging (host : Host) (f : File) (st : AppState) :
  isDragging (processFile host f st) = isDragging st.
Proof.
  unfold processFile.
  destruct (maxSize <? size f); [reflexivity|].
  destruct (negb (includes validTypes (type f))); reflexivity.
Qed.

Section ValidationExtras.
Variable host : Host.

(** X6. [processFile] ends with no error message exactly when the file is at
    most 20 * 1024 * 1024 bytes and its MIME type is one of the five accepted
    ones; any message left from an earlier refusal is cleared then. *)
Theorem processFile_accepts_iff (f : File) (st : AppState) :
  errorMsg (processFile host f st) = None
  <-> size f <= 20 * 1024 * 1024 /\ In (type f) validTypes.
Proof.
  unfold processFile. change (20 * 1024 * 1024) with maxSize.
  destruct (maxSize <? size f) eqn:Hsize.
  - apply N.ltb_lt in Hsize. split.
    + discriminate.
    + intros [H _]. lia.
  - apply N.ltb_ge in Hsize.
    destruct (includes validTypes (type f)) eqn:Htype; cbv [negb].
    + apply includes_In in Htype. split; [now split | reflexivity].
    + split; [discriminate|].
      intros [_ H]. apply includes_In in H. congruence.
Qed.


(** X8. A refused file never replaces the current one: when [processFile]
    leaves an error message, it has changed nothing else, and the message is
    one of the two of the validation. *)
Theorem processFile_refusal_keeps_state (f : File) (st : AppState) (m : jsstring) :
  errorMsg (processFile host f st) = Some m ->
  processFile host f st = setErrorMsg (Some m) st
  /\ (m = tooLargeMessage \/ m = invalidTypeMessage).
Proof.
  unfold processFile.
  destruct (maxSize <? size f).
  - cbn [errorMsg setErrorMsg]. intro H. injection H as <-.
    split; [reflexivity | left; reflexivity].
  - destruct (negb (includes validTypes (type f))).
    + cbn [errorMsg setErrorMsg]. intro H. injection H as <-.
      split; [reflexivity | right; reflexivity].
    + cbn [errorMsg setErrorMsg setStatus setFileData setGeneratedText]. discriminate.
Qed.

(** X9. Dropping files is leaving the drop zone and then choosing the same
    files: only the first file is looked at, and the drag flag is off
    afterwards whatever was dropped. *)
Theorem handleDrop_first_file (files : option (list File)) (st : AppState) :
  handleDrop host files st = handleFileChange host files (handleDragLeave st)
  /\ isDragging (handleDrop host files st) = false
  /\ (forall f rest, handleDrop host (Some (f :: rest)) st = handleDrop host (Some [f]) st)
  /\ handleDrop host (Some []) st = handleDrop host None st.
Proof.
  split; [|split; [|split]].
  - destruct files as [[|f rest]|]; reflexivity.
  - destruct files as [[|f rest]|]; try reflexivity.
    unfold handleDrop. now rewrite processFile_isDragging.
  - reflexivity.
  - reflexivity.
Qed.

End ValidationExtras.


Lemma processFile_refusal_keeps_state_witness :
  processFile (answeringHost None) largeTextFile
    (setGeneratedText (js "PELA DESPESA EMPENHADA") initialState)
  = setErrorMsg (Some tooLargeMessage)
      (setGeneratedText (js "PELA DESPESA EMPENHADA") initialState)
  /\ (tooLargeMessage = tooLargeMessage \/ tooLargeMessage = invalidTypeMessage).
Proof.
  apply (processFile_refusal_keeps_state (answeringHost None) largeTextFile
           (setGeneratedText (js "PELA DESPESA EMPENHADA") initialState) tooLargeMessage).
  reflexivity.
Defined.

(** ** More on the service *)

Lemma split_noComma (s : jsstring) : noComma s = true -> split 0x2C s = [s].
Proof.
  induction s as [|c s IH]; [reflexivity|].
  simpl. intro H. apply andb_true_iff in H. destruct H as [Hc Hs].
  apply negb_true_iff in Hc. rewrite Hc, (IH Hs). reflexivity.
Qed.

Lemma split_app_comma (h rest : jsstring) :
  noComma h = true -> split 0x2C (h ++ 0x2C :: rest) = h :: split 0x2C rest.
Proof.
  induction h as [|c h IH]; [reflexivity|].
  simpl. intro H. apply andb_true_iff in H. destruct H as [Hc Hs].
  apply negb_true_iff in Hc. rewrite Hc, (IH Hs). reflexivity.
Qed.

Lemma split_first_piece (p tail : jsstring) :
  noComma p = true ->
  tail = [] \/ (exists t, tail = 0x2C :: t) ->
  exists pieces, split 0x2C (p ++ tail) = p :: pieces.
Proof.
  intros Hp [-> | [t ->]].
  - rewrite app_nil_r, (split_noComma p Hp). now exists [].
  - rewrite (split_app_comma p t Hp). now exists (split 0x2C t).
Qed.

Section ServiceExtras.
Context {table : CaseTable} (host : Host).

(** The two ways [generateEmpenhoDescription] can end. *)
Lemma generateEmpenhoDescription_cases (f : File) :
  (exists raw, generateEmpenhoDescription host f = ([], Fulfilled (normalizeOutput raw)))
  \/ (exists e, generateEmpenhoDescription host f
                = ([e], Rejected (ErrorObject failureMessage))).
Proof.
  unfold generateEmpenhoDescription, fileToGenerativePart.
  destruct (readAsDataURL host f) as [base64String | e]; cbn [await].
  - destruct (generateContent host _) as [response | e]; cbn [await].
    + left. now exists (orElse (text response) []).
    + right. now exists e.
  - right. now exists e.
Qed.

(** X10. When the reader gives a data URL, a header with no comma, a comma
    and a payload with no comma in it, the part sent to the model holds the
    payload alone, with the MIME type of the file; what follows a second comma
    is dropped. *)
Theorem fileToGenerativePart_payload (f : File) (header payload tail : jsstring) :
  readAsDataURL host f = Fulfilled (header ++ [0x2C] ++ payload ++ tail) ->
  noComma header = true ->
  noComma payload = true ->
  tail = [] \/ (exists t, tail = 0x2C :: t) ->
  fileToGenerativePart host f
  = Fulfilled {| data := Some payload; mimeType := type f |}.
Proof.
  intros Hread Hh Hp Htail. unfold fileToGenerativePart.
  rewrite Hread. cbn [await app].
  rewrite (split_app_comma header _ Hh).
  destruct (split_first_piece payload tail Hp Htail) as [pieces ->].
  reflexivity.
Qed.

(** X11. When what the reader gives has no comma, the promise of
    [fileToGenerativePart] is still fulfilled, with undefined data. *)
Theorem fileToGenerativePart_no_comma (f : File) (result : jsstring) :
  readAsDataURL host f = Fulfilled result ->
  noComma result = true ->
  fileToGenerativePart host f = Fulfilled {| data := None; mimeType := type f |}.
Proof.
  intros Hread Hs. unfold fileToGenerativePart.
  rewrite Hread. cbn [await]. now rewrite (split_noComma result Hs).
Qed.

(** X12. Whatever the reader and the model do, [generateEmpenhoDescription]
    ends in one of two ways: fulfilled, with nothing logged and a text that
    starts with PELA DESPESA EMPENHADA and holds no asterisk; or rejected with
    the fixed message, with one value logged. *)
Theorem generateEmpenhoDescription_outcome (f : File) :
  (exists t,
     generateEmpenhoDescription host f = ([], Fulfilled t)
     /\ startsWith t requiredPrefix = true
     /\ noAsterisk t = true)
  \/ (exists e,
        generateEmpenhoDescription host f = ([e], Rejected (ErrorObject failureMessage))).
Proof.
  destruct (generateEmpenhoDescription_cases f) as [[raw H] | [e H]].
  - left. exists (normalizeOutput raw). split; [exact H|]. split.
    + apply normalizeOutput_startsWith.
    + apply normalizeOutput_noAsterisk.
  - right. now exists e.
Qed.

(** X13. [handleProcess] on a state with a file never ends in PROCESSING or
    IDLE and keeps the file.  It ends in SUCCESS with no error message, the
    edit flag on and a generated text that starts with PELA DESPESA EMPENHADA
    and holds no asterisk; or in ERROR with the fixed failure message (never
    the fall-back for an unknown error) and the generated text and edit flag
    it started with. *)
Theorem handleProcess_ends (st : AppState) (fd : FileData) :
  fileData st = Some fd ->
  fileData (handleProcess host st) = Some fd
  /\ ((status (handleProcess host st) = SUCCESS
       /\ errorMsg (handleProcess host st) = None
       /\ isEditing (handleProcess host st) = true
       /\ startsWith (generatedText (handleProcess host st)) requiredPrefix = true
       /\ noAsterisk (generatedText (handleProcess host st)) = true)
      \/ (status (handleProcess host st) = ERROR
          /\ errorMsg (handleProcess host st) = Some failureMessage
          /\ generatedText (handleProcess host st) = generatedText st
          /\ isEditing (handleProcess host st) = isEditing st)).
Proof.
  intro Hfd. unfold handleProcess. rewrite Hfd.
  destruct (generateEmpenhoDescription_cases (file fd)) as [[raw H] | [e H]];
    rewrite H; cbn [snd handleProcess_settle].
  - split; [exact Hfd|]. left. repeat split.
    + apply normalizeOutput_startsWith.
    + apply normalizeOutput_noAsterisk.
  - split; [exact Hfd|]. right. repeat split.
Qed.

(** X14. Typing in the textarea of a Basic Latin text: the edit upper-cases
    what was typed and leaves the upper-case text around it as it is. *)
Theorem textArea_onChange_typing (before typed after : jsstring) (st : AppState) :
  isUpperAscii before = true ->
  isAscii typed = true ->
  isUpperAscii after = true ->
  generatedText (textArea_onChange (before ++ typed ++ after) st)
  = before ++ map asciiUpper typed ++ after.
Proof.
  intros Hb Ht Ha. cbn [textArea_onChange setGeneratedText generatedText].
  rewrite toUpperCase_ascii.
  - now rewrite !map_app, (map_asciiUpper_isUpperAscii before Hb),
      (map_asciiUpper_isUpperAscii after Ha).
  - now rewrite !isAscii_app, (isUpperAscii_isAscii before Hb), Ht,
      (isUpperAscii_isAscii after Ha).
Qed.

End ServiceExtras.

Lemma fileToGenerativePart_payload_witness :
  fileToGenerativePart (answeringHost None) pngFile
  = Fulfilled {| data := Some (js "iVBORw0KGgo="); mimeType := type pngFile |}.
Proof.
  apply (fileToGenerativePart_payload (answeringHost None) pngFile
           (js "data:image/png;base64") (js "iVBORw0KGgo=") []).
  - vm_compute. reflexivity.
  - vm_compute. reflexivity.
  - vm_compute. reflexivity.
  - left. reflexivity.
Defined.

Lemma fileToGenerativePart_no_comma_witness :
  fileToGenerativePart (readingHost (js "data:")) pngFile
  = Fulfilled {| data := None; mimeType := type pngFile |}.
Proof.
  apply (fileToGenerativePart_no_comma (readingHost (js "data:")) pngFile (js "data:")).
  - reflexivity.
  - vm_compute. reflexivity.
Defined.

Lemma handleProcess_ends_witness :
  let host := answeringHost (Some (js "material de escritório")) in
  let st := processFile host pngFile initialState in
  fileData (@handleProcess sampleTable host st)
  = Some {| file := pngFile; previewUrl := Some (js "blob:preview") |}
  /\ ((status (@handleProcess sampleTable host st) = SUCCESS
       /\ errorMsg (@handleProcess sampleTable host st) = None
       /\ isEditing (@handleProcess sampleTable host st) = true
       /\ startsWith (generatedText (@handleProcess sampleTable host st)) requiredPrefix = true
       /\ noAsterisk (generatedText (@handleProcess sampleTable host st)) = true)
      \/ (status (@handleProcess sampleTable host st) = ERROR
          /\ errorMsg (@handleProcess sampleTable host st) = Some failureMessage
          /\ generatedText (@handleProcess sampleTable host st) = generatedText st
          /\ isEditing (@handleProcess sampleTable host st) = isEditing st)).
Proof.
  intros host st.
  apply (@handleProcess_ends sampleTable host st
           {| file := pngFile; previewUrl := Some (js "blob:preview") |}).
  vm_compute. reflexivity.
Defined.

Lemma textArea_onChange_typing_witness :
  generatedText
    (@textArea_onChange sampleTable (js "NOTA " ++ js "fiscal" ++ js " 12")
       (setStatus SUCCESS initialState))
  = js "NOTA " ++ map asciiUpper (js "fiscal") ++ js " 12".
Proof.
  apply (@textArea_onChange_typing sampleTable (js "NOTA ") (js "fiscal") (js " 12")
           (setStatus SUCCESS initialState));
    vm_compute; reflexivity.
Defined.

(** ** Sessions *)

(** The routine goals of an invariant proof: a status that cannot be, a field
    that was just set, or a fact about the file that the invariant of the
    state before gives. *)
Ltac session_goal Hf :=
  repeat split; intros;
  try match goal with
      | H : _ \/ _ |- _ => destruct H
      end;
  try discriminate; try reflexivity; try congruence;
  try (apply Hf; congruence);
  eauto.

Lemma sessionInvariant_initial : sessionInvariant initialState.
Proof.
  unfold sessionInvariant, initialState.
  cbn [status fileData generatedText errorMsg isEditing].
  session_goal I.
Qed.

Lemma sessionInvariant_setIsDragging (b : bool) (st : AppState) :
  sessionInvariant st -> sessionInvariant (setIsDragging b st).
Proof. intro H. exact H. Qed.

Lemma sessionInvariant_setErrorMsg_idle (m : option jsstring) (st : AppState) :
  status st = IDLE -> sessionInvariant st -> sessionInvariant (setErrorMsg m st).
Proof.
  intros Hs (Ha & Hb & Hc & Hd & He & Hf).
  unfold sessionInvariant. cbn [status fileData generatedText errorMsg isEditing setErrorMsg].
  session_goal Hf.
Qed.

Lemma sessionInvariant_handleReset (st : AppState) : sessionInvariant (handleReset st).
Proof.
  unfold sessionInvariant, handleReset.
  cbn [status fileData generatedText errorMsg isEditing clearFileInput
       setStatus setErrorMsg setFileData setGeneratedText setIsEditing].
  session_goal I.
Qed.

Lemma sessionInvariant_processFile (host : Host) (f : File) (st : AppState) :
  status st = IDLE -> sessionInvariant st -> sessionInvariant (processFile host f st).
Proof.
  intros Hs Hinv. unfold processFile.
  destruct (maxSize <? size f) eqn:Hsize;
    [now apply sessionInvariant_setErrorMsg_idle|].
  destruct (includes validTypes (type f)) eqn:Htype; cbv [negb];
    [|now apply sessionInvariant_setErrorMsg_idle].
  apply N.ltb_ge in Hsize. apply includes_In in Htype.
  assert (Hurl : exists url,
    (if startsWith (type f) (js "image/") then Some (createObjectURL host f)
     else if strictEquals (type f) (js "application/pdf")
          then Some (js "https://upload.wikimedia.org/wikipedia/commons/8/87/PDF_file_icon.svg")
          else None) = Some url).
  { destruct (validTypes_preview _ Htype) as [Himg | [Himg Hpdf]]; rewrite Himg.
    - eauto.
    - rewrite Hpdf. eauto. }
  unfold sessionInvariant.
  cbn [status fileData generatedText errorMsg isEditing
       setStatus setErrorMsg setFileData setGeneratedText].
  repeat split; intros;
    try match goal with
        | H : _ \/ _ |- _ => destruct H
        end;
    try discriminate; try reflexivity; try congruence; eauto;
    match goal with
    | H : Some _ = Some _ |- _ => injection H as <-
    end; cbn [file previewUrl]; assumption.
Qed.

Lemma dropZone_idle (st : AppState) :
  sessionInvariant st -> dropZoneShown st = true -> status st = IDLE.
Proof.
  intros (Ha & _) Hzone. unfold dropZoneShown, fileCardShown in Hzone.
  destruct (status st) eqn:Hs; [reflexivity| | |];
    (destruct Ha as [fd Hfd]; [discriminate|]; rewrite Hfd in Hzone; discriminate).
Qed.

Section SessionInvariant.
Context {table : CaseTable}.

Lemma sessionInvariant_begin (st st' : AppState) :
  sessionInvariant st -> handleProcess_begin st = Some st' -> sessionInvariant st'.
Proof.
  intros (Ha & Hb & Hc & Hd & He & Hf). unfold handleProcess_begin.
  destruct (fileData st) as [fd|] eqn:Hfd; [|discriminate].
  intro H. injection H as <-.
  unfold sessionInvariant.
  cbn [status fileData generatedText errorMsg isEditing setStatus setErrorMsg].
  session_goal Hf.
Qed.

Lemma sessionInvariant_settle (host : Host) (st : AppState) (fd : FileData) :
  sessionInvariant st -> status st = PROCESSING -> fileData st = Some fd ->
  sessionInvariant
    (handleProcess_settle (snd (generateEmpenhoDescription host (file fd))) st).
Proof.
  intros (Ha & Hb & Hc & Hd & He & Hf) Hs Hfd.
  assert (Herr : errorMsg st = None) by auto.
  destruct (generateEmpenhoDescription_cases host (file fd)) as [[raw H] | [e H]];
    rewrite H; cbn [snd handleProcess_settle]; unfold sessionInvariant;
    cbn [status fileData generatedText errorMsg isEditing
         setStatus setErrorMsg setGeneratedText setIsEditing];
    session_goal Hf.
Qed.

Lemma sessionInvariant_edit (value : jsstring) (st : AppState) :
  status st = SUCCESS -> sessionInvariant st ->
  sessionInvariant (textArea_onChange value st).
Proof.
  intros Hs (Ha & Hb & Hc & Hd & He & Hf). unfold sessionInvariant.
  cbn [status fileData generatedText errorMsg isEditing textArea_onChange setGeneratedText].
  session_goal Hf.
Qed.

(** Every event the page offers keeps the invariant. *)
Lemma dispatch_invariant (ev : Event) (st st' : AppState) :
  sessionInvariant st -> dispatch ev st = Some st' -> sessionInvariant st'.
Proof.
  intros Hinv. destruct ev; cbn [dispatch].
  - destruct (dropZoneShown st); [|discriminate].
    intro H. injection H as <-. now apply sessionInvariant_setIsDragging.
  - destruct (dropZoneShown st); [|discriminate].
    intro H. injection H as <-. now apply sessionInvariant_setIsDragging.
  - destruct (dropZoneShown st) eqn:Hzone; [|discriminate].
    intro H. injection H as <-.
    pose proof (dropZone_idle st Hinv Hzone) as Hs.
    unfold handleDrop. destruct files as [[|f rest]|];
      try now apply sessionInvariant_setIsDragging.
    apply sessionInvariant_processFile; [exact Hs|].
    now apply sessionInvariant_setIsDragging.
  - destruct (dropZoneShown st) eqn:Hzone; [|discriminate].
    intro H. injection H as <-.
    pose proof (dropZone_idle st Hinv Hzone) as Hs.
    unfold handleFileChange. destruct files as [[|f rest]|]; try exact Hinv.
    now apply sessionInvariant_processFile.
  - destruct (fileCardShown st && negb (buttonsDisabled st)); [|discriminate].
    now apply sessionInvariant_begin.
  - destruct (status st) eqn:Hs; try discriminate.
    destruct (fileData st) as [fd|] eqn:Hfd; [|discriminate].
    intro H. injection H as <-. now apply sessionInvariant_settle.
  - destruct (fileCardShown st && negb (buttonsDisabled st)); [|discriminate].
    intro H. injection H as <-. apply sessionInvariant_handleReset.
  - destruct (resultSectionShown st); [|discriminate].
    intro H. injection H as <-. apply sessionInvariant_handleReset.
  - unfold resultSectionShown. destruct (status st) eqn:Hs; try discriminate.
    intro H. injection H as <-. now apply sessionInvariant_edit.
Qed.

Lemma run_invariant (evs : list Event) (st st' : AppState) :
  sessionInvariant st -> run evs st = Some st' -> sessionInvariant st'.
Proof.
  revert st. induction evs as [|ev evs IH]; intros st Hinv; cbn [run].
  - intro H. now injection H as <-.
  - destruct (dispatch ev st) as [st1|] eqn:Hd; [|discriminate].
    apply IH. now apply (dispatch_invariant ev st).
Qed.

End SessionInvariant.

Section SessionExtras.
Context {table : CaseTable}.

(** X15. In every state a session reaches, the current file, if there is one,
    passed the validation: it is at most 20 * 1024 * 1024 bytes, its MIME type
    is one of the five accepted ones, and it has a preview. *)
Theorem session_file_valid (evs : list Event) (st : AppState) (fd : FileData) :
  run evs initialState = Some st ->
  fileData st = Some fd ->
  size (file fd) <= 20 * 1024 * 1024
  /\ In (type (file fd)) validTypes
  /\ exists url, previewUrl fd = Some url.
Proof.
  intros Hrun Hfd.
  destruct (run_invariant evs _ _ sessionInvariant_initial Hrun)
    as (_ & _ & _ & _ & _ & Hf).
  exact (Hf fd Hfd).
Qed.

(** X16. In every state a session reaches, no current file means the status
    IDLE and an empty generated text: generating, a result and a failure all
    come with the file they are about. *)
Theorem session_no_file_idle (evs : list Event) (st : AppState) :
  run evs initialState = Some st ->
  fileData st = None ->
  status st = IDLE /\ generatedText st = [].
Proof.
  intros Hrun Hfd.
  destruct (run_invariant evs _ _ sessionInvariant_initial Hrun)
    as (Ha & Hb & _).
  assert (Hs : status st = IDLE).
  { destruct (status st) eqn:Hs; [reflexivity| | |];
      (destruct Ha as [fd Hfd']; [discriminate | congruence]). }
  split; [exact Hs | now apply Hb].
Qed.

(** X17. In every state a session reaches with the status IDLE, the generated
    text is empty: accepting a file and resetting both clear it, and nothing
    brings the status back to IDLE otherwise. *)
Theorem session_idle_no_text (evs : list Event) (st : AppState) :
  run evs initialState = Some st ->
  status st = IDLE ->
  generatedText st = [].
Proof.
  intros Hrun Hs.
  destruct (run_invariant evs _ _ sessionInvariant_initial Hrun)
    as (_ & Hb & _).
  now apply Hb.
Qed.

(** X18. In every state a session reaches, the status decides the error
    message outside IDLE: none in PROCESSING and SUCCESS, the fixed failure
    message (never the fall-back for an unknown error, never a message of the
    validation) in ERROR; and in SUCCESS the edit flag is on. *)
Theorem session_error_message (evs : list Event) (st : AppState) :
  run evs initialState = Some st ->
  errorMsg st
  = match status st with
    | IDLE => errorMsg st
    | PROCESSING | SUCCESS => None
    | ERROR => Some failureMessage
    end
  /\ (status st = SUCCESS -> isEditing st = true).
Proof.
  intro Hrun.
  destruct (run_invariant evs _ _ sessionInvariant_initial Hrun)
    as (_ & _ & Hc & Hd & He & _).
  split; [|exact He].
  destruct (status st); auto.
Qed.

(** X19. While a generation is in flight nothing else can happen: in a state
    a session reaches with the status PROCESSING, the only event the page
    offers is the settling of the promise, and it ends in SUCCESS or ERROR.
    So at most one generation is in flight. *)
Theorem processing_only_settles (evs : list Event) (st st' : AppState) (ev : Event) :
  run evs initialState = Some st ->
  status st = PROCESSING ->
  dispatch ev st = Some st' ->
  (exists host, ev = Settle host)
  /\ (status st' = SUCCESS \/ status st' = ERROR).
Proof.
  intros Hrun Hs Hd.
  destruct (run_invariant evs _ _ sessionInvariant_initial Hrun) as (Ha & _).
  destruct Ha as [fd Hfd]; [congruence|].
  assert (Hzone : dropZoneShown st = false)
    by (unfold dropZoneShown, fileCardShown; now rewrite Hfd).
  assert (Hdis : buttonsDisabled st = true)
    by (unfold buttonsDisabled; now rewrite Hs).
  assert (Hres : resultSectionShown st = false)
    by (unfold resultSectionShown; now rewrite Hs).
  destruct ev; cbn [dispatch] in Hd;
    rewrite ?Hzone, ?Hdis, ?Hres, ?andb_false_r in Hd; try discriminate.
  rewrite Hs, Hfd in Hd. injection Hd as <-.
  split; [now exists host|].
  destruct (generateEmpenhoDescription_cases host (file fd)) as [[raw H] | [e H]];
    rewrite H; cbn [snd handleProcess_settle]; [left | right]; reflexivity.
Qed.

End SessionExtras.

Lemma session_file_valid_witness :
  size (file {| file := pngFile; previewUrl := Some (js "blob:preview") |})
  <= 20 * 1024 * 1024
  /\ In (type (file {| file := pngFile; previewUrl := Some (js "blob:preview") |}))
       validTypes
  /\ exists url,
       previewUrl {| file := pngFile; previewUrl := Some (js "blob:preview") |} = Some url.
Proof.
  apply (@session_file_valid sampleTable successSession (stateAfter successSession)
           {| file := pngFile; previewUrl := Some (js "blob:preview") |}).
  - vm_compute. reflexivity.
  - vm_compute. reflexivity.
Defined.

Lemma session_no_file_idle_witness :
  status (stateAfter refusedSession) = IDLE
  /\ generatedText (stateAfter refusedSession) = [].
Proof.
  apply (@session_no_file_idle sampleTable refusedSession (stateAfter refusedSession)).
  - vm_compute. reflexivity.
  - vm_compute. reflexivity.
Defined.

Lemma session_idle_no_text_witness :
  generatedText (stateAfter (errorSession ++ [ClickRemove])) = [].
Proof.
  apply (@session_idle_no_text sampleTable (errorSession ++ [ClickRemove])
           (stateAfter (errorSession ++ [ClickRemove]))).
  - vm_compute. reflexivity.
  - vm_compute. reflexivity.
Defined.

Lemma session_error_message_witness :
  errorMsg (stateAfter errorSession)
  = match status (stateAfter errorSession) with
    | IDLE => errorMsg (stateAfter errorSession)
    | PROCESSING | SUCCESS => None
    | ERROR => Some failureMessage
    end
  /\ (status (stateAfter errorSession) = SUCCESS
      -> isEditing (stateAfter errorSession) = true).
Proof.
  apply (@session_error_message sampleTable errorSession (stateAfter errorSession)).
  vm_compute. reflexivity.
Defined.

Lemma processing_only_settles_witness :
  (exists host, Settle (answeringHost None) = Settle host)
  /\ (status (stateAfter (processingSession ++ [Settle (answeringHost None)])) = SUCCESS
      \/ status (stateAfter (processingSession ++ [Settle (answeringHost None)])) = ERROR).
Proof.
  apply (@processing_only_settles sampleTable processingSession
           (stateAfter processingSession)
           (stateAfter (processingSession ++ [Settle (answeringHost None)]))
           (Settle (answeringHost None))).
  - vm_compute. reflexivity.
  - vm_compute. reflexivity.
  - vm_compute. reflexivity.
Defined.
